(** * The drawing-tutorial server: a shallow embedding of its pipeline

    The server (the Express application of [test-nano-banana.js]) turns an
    uploaded picture into a drawing tutorial by a fixed sequence of calls
    to an external generative model.  This file embeds the parts of it
    that carry behaviour of their own: the text post-processing
    ([parseInt], the numbered-list parser), the artifact store, the step
    loop with its window of recent images, and the request handler.

    Conventions of the embedding:
    - a JavaScript string is the list of its UTF-16 code units;
    - the external model, the clock and the file system are explicit: a
      computation is a function of the [World], and returns a value or
      throws, as the JavaScript code does;
    - [console.log] and [console.error] have no effect on the results and
      are left out;
    - a prompt is kept as its template together with the values that are
      interpolated into it, not as the rendered text. *)

From Stdlib Require Import ZArith Ascii String DecimalString DecimalN.
From stdpp Require Import base list gmap.

Local Open Scope Z_scope.

(** ** JavaScript strings *)

Module Js.

(** A string is a sequence of UTF-16 code units. *)
Abbreviation jsstring := (list N).

(** An ASCII literal, as the code units of its characters. *)
Definition lit (s : string) : jsstring :=
  List.map N_of_ascii (list_ascii_of_string s).

(** Decimal rendering of a non-negative integer, as template
    interpolation of a number does. *)
Definition decimal (n : N) : jsstring :=
  lit (NilZero.string_of_uint (N.to_uint n)).

(** [WhiteSpace] and [LineTerminator] of ECMAScript: the code units that
    [String.prototype.trim] removes and that [\s] matches. *)
Definition is_space (c : N) : bool :=
  ((9 <=? c) && (c <=? 13))%N        (* TAB, LF, VT, FF, CR *)
  || (c =? 32)%N                      (* SPACE *)
  || (c =? 160)%N                     (* NO-BREAK SPACE *)
  || (c =? 5760)%N                    (* U+1680 *)
  || ((8192 <=? c) && (c <=? 8202))%N (* U+2000 .. U+200A *)
  || (c =? 8232)%N || (c =? 8233)%N   (* U+2028, U+2029 *)
  || (c =? 8239)%N || (c =? 8287)%N   (* U+202F, U+205F *)
  || (c =? 12288)%N                   (* U+3000 *)
  || (c =? 65279)%N.                  (* U+FEFF *)

(** [\d]: the ASCII digits only. *)
Definition is_digit (c : N) : bool := ((48 <=? c) && (c <=? 57))%N.

Fixpoint drop_while (p : N -> bool) (s : jsstring) : jsstring :=
  match s with
  | [] => []
  | c :: s' => if p c then drop_while p s' else s
  end.

Fixpoint take_while (p : N -> bool) (s : jsstring) : jsstring :=
  match s with
  | [] => []
  | c :: s' => if p c then c :: take_while p s' else []
  end.

Definition trimStart (s : jsstring) : jsstring := drop_while is_space s.
Definition trimEnd (s : jsstring) : jsstring :=
  rev (drop_while is_space (rev s)).

(** [s.trim()] *)
Definition trim (s : jsstring) : jsstring := trimEnd (trimStart s).

(** [s.split('\n')]: the pieces between line feeds; never empty. *)
Fixpoint split_lines (s : jsstring) : list jsstring :=
  match s with
  | [] => [[]]
  | c :: s' =>
      if (c =? 10)%N then [] :: split_lines s'
      else match split_lines s' with
           | [] => [[c]]
           | l :: ls => (c :: l) :: ls
           end
  end.

(** Truthiness of a string: every string but the empty one. *)
Definition truthy (s : jsstring) : bool :=
  match s with [] => false | _ => true end.

(** The value of a digit in radix 10 or 16, if it is one. *)
Definition digit_value (radix : Z) (c : N) : option Z :=
  let c := Z.of_N c in
  let v := if (48 <=? c) && (c <=? 57) then Some (c - 48)
           else if (97 <=? c) && (c <=? 122) then Some (c - 97 + 10)
           else if (65 <=? c) && (c <=? 90) then Some (c - 65 + 10)
           else None in
  match v with
  | Some d => if d <? radix then Some d else None
  | None => None
  end.

(** The longest prefix of radix digits, read as a number; [None] when
    there is no digit at all.  [acc] is the value read so far and [seen]
    tells whether a digit was read. *)
Fixpoint read_digits (radix : Z) (s : jsstring) (acc : Z) (seen : bool)
  : option Z :=
  match s with
  | [] => if seen then Some acc else None
  | c :: s' =>
      match digit_value radix c with
      | Some d => read_digits radix s' (radix * acc + d) true
      | None => if seen then Some acc else None
      end
  end.

(** [parseInt(s)] without a radix argument: leading white space is
    skipped, then an optional sign, then an optional [0x]/[0X] prefix
    that selects radix 16, then the longest run of digits; [None] stands
    for [NaN].  The result is the mathematical integer that was read:
    the rounding to a double that JavaScript applies only touches values
    beyond 2^53. *)
Definition parseInt (s : jsstring) : option Z :=
  let s := trimStart s in
  let '(sign, s) :=
    match s with
    | 45%N :: s' => (-1, s')
    | 43%N :: s' => (1, s')
    | _ => (1, s)
    end in
  let '(radix, s) :=
    match s with
    | 48%N :: 120%N :: s' => (16, s')
    | 48%N :: 88%N :: s' => (16, s')
    | _ => (10, s)
    end in
  match read_digits radix s 0 false with
  | Some n => Some (sign * n)
  | None => None
  end.

End Js.

Import Js.

(** ** Values, errors and the world *)

Inductive ErrorName := ApiError | IOError | TypeError | PlainError.

(** A thrown [Error] object: its class and its [message]. *)
Record JsError := { name : ErrorName; message : jsstring }.

(** The outcome of an evaluation: a value, or a thrown error. *)
Inductive result (A : Type) : Type :=
| Ok (a : A)
| Err (e : JsError).
Arguments Ok {A} a.
Arguments Err {A} e.

(** [{ data, mimeType }]: an image as the model API carries it, [data]
    being base64 text. *)
Record InlineData := { data : jsstring; mimeType : jsstring }.

(** The prompts of the server, each with the values its template
    interpolates. *)
Inductive Prompt :=
| SketchPrompt (difficulty : jsstring)
| VisionPrompt
| StepCountPrompt (imageDescription : jsstring)
| PlanPrompt (totalSteps : nat) (imageDescription : jsstring)
| StepImagePrompt (stepNumber totalSteps : nat) (stepDescription : jsstring).

(** An element of the [content] array handed to [generateContent]. *)
Inductive Part :=
| PText (p : Prompt)
| PInline (inlineData : option InlineData).

(** One request to the model. *)
Record Call := { model : jsstring; content : list Part }.

(** The response of the model, with the optional fields the server
    probes. [text] is the outcome of [response.text()]. *)
Record ResponsePart :=
  { inlineData : option InlineData; partText : option jsstring }.
Record Content := { parts : option (list ResponsePart) }.
Record Candidate := { candidateContent : option Content }.
Record GenResponse :=
  { candidates : option (list Candidate); text : result jsstring }.

(** A path below the working directory: a directory and a file name. *)
Abbreviation path := (jsstring * jsstring)%type.
Abbreviation buffer := (list N) (only parsing).

(** What lies outside the program and does not change: the model's
    answer to its [n]-th request, the time at the [n]-th reading of the
    clock, and the base64 codec of [Buffer]. *)
Record Env := {
  gemini : nat -> Call -> result GenResponse;
  clock : nat -> N;
  base64_decode : jsstring -> buffer;
  base64_encode : buffer -> jsstring
}.

(** The mutable world: the directories and files below the working
    directory, the requests sent to the model so far (oldest first) and
    the number of clock readings.  The file system has no permissions
    and no quota: a write fails exactly when its directory is missing.
    This is how a POSIX file system treats the file names that
    [plainName] describes, the only ones the server builds. *)
Record World := {
  dirs : gset jsstring;
  files : gmap path buffer;
  calls : list Call;
  readings : nat
}.

(** ** Computations: state and exceptions *)

Definition M (A : Type) : Type := World -> result A * World.

Definition ret {A} (a : A) : M A := fun w => (Ok a, w).
Definition throw {A} (e : JsError) : M A := fun w => (Err e, w).
Definition lift {A} (r : result A) : M A := fun w => (r, w).

Definition bind {A B} (m : M A) (f : A -> M B) : M B :=
  fun w =>
    match m w with
    | (Ok a, w') => f a w'
    | (Err e, w') => (Err e, w')
    end.

(** [try { m } catch (e) { h e }] *)
Definition try_catch {A} (m : M A) (h : JsError -> M A) : M A :=
  fun w =>
    match m w with
    | (Ok a, w') => (Ok a, w')
    | (Err e, w') => h e w'
    end.

Notation "'let*' x ':=' m 'in' k" := (bind m (fun x => k))
  (at level 10, x pattern, m at level 100, k at level 200).

(** ** The file system and the clock *)

(** A file name as the server builds it ([step_<number>_<time>],
    [reference_sketch_<time>]): lower-case letters, digits and
    underscores, short enough to fit, with an extension, the 255 bytes
    of a file name.  Such a name has no separator, no [.] or [..]
    component and no character that a file system folds or replaces. *)
Definition plainName (filename : jsstring) : bool :=
  forallb (fun c => is_digit c || ((97 <=? c) && (c <=? 122))%N
                    || (c =? 95)%N) filename
  && (length filename <=? 251)%nat.

(** [path.join(dir, file)] for a directory name and a file name without
    separators: the path of the file in the directory.  The
    normalisation that [path.join] applies to other names ([./a],
    [../a], [sub/a]) is not modelled; the theorems on the
    store under a file name of the caller's assume [plainName]. *)
Definition path_join (dir file : jsstring) : path := (dir, file).
Definition path_dirname (p : path) : jsstring := fst p.
Definition path_text (p : path) : jsstring := fst p ++ lit "/" ++ snd p.

Definition enoent (p : path) : JsError :=
  {| name := IOError;
     message := lit "ENOENT: no such file or directory, open '"
                ++ path_text p ++ lit "'" |}.

Definition eexist (dir : jsstring) : JsError :=
  {| name := IOError;
     message := lit "EEXIST: file already exists, mkdir '"
                ++ dir ++ lit "'" |}.

Definition existsSync (dir : jsstring) : M bool :=
  fun w => (Ok (bool_decide (dir ∈ dirs w)), w).

Definition add_dir (dir : jsstring) (w : World) : World :=
  {| dirs := {[ dir ]} ∪ dirs w; files := files w;
     calls := calls w; readings := readings w |}.

(** [fs.mkdirSync(dir)] and [fs.mkdirSync(dir, { recursive: true })]:
    only the former objects to a directory that is there already. *)
Definition mkdirSync (dir : jsstring) (recursive : bool) : M unit :=
  fun w =>
    if bool_decide (dir ∈ dirs w)
    then (if recursive then (Ok tt, w) else (Err (eexist dir), w))
    else (Ok tt, add_dir dir w).

Definition put_file (p : path) (b : buffer) (w : World) : World :=
  {| dirs := dirs w; files := <[ p := b ]> (files w);
     calls := calls w; readings := readings w |}.

Definition writeFileSync (p : path) (b : buffer) : M unit :=
  fun w =>
    if bool_decide (path_dirname p ∈ dirs w)
    then (Ok tt, put_file p b w)
    else (Err (enoent p), w).

Definition readFileSync (p : path) : M buffer :=
  fun w =>
    match files w !! p with
    | Some b => (Ok b, w)
    | None => (Err (enoent p), w)
    end.

Definition tick (w : World) : World :=
  {| dirs := dirs w; files := files w;
     calls := calls w; readings := S (readings w) |}.

Definition log_call (c : Call) (w : World) : World :=
  {| dirs := dirs w; files := files w;
     calls := calls w ++ [c]; readings := readings w |}.

(** ** The server *)

Section Server.

Context (env : Env).

(** [Date.now()] *)
Definition Date_now : M N :=
  fun w => (Ok (clock env (readings w)), tick w).

(** [await model.generateContent(content)] followed by
    [await result.response], for the model called [modelName]: the
    request is recorded, and the environment answers or throws. *)
Definition generateContent (modelName : jsstring) (content : list Part)
  : M GenResponse :=
  fun w =>
    let c := {| model := modelName; content := content |} in
    (gemini env (length (calls w)) c, log_call c w).

(** [fs.readFileSync(filePath).toString('base64')] *)
Definition imageToBase64 (filePath : path) : M jsstring :=
  let* imageBuffer := readFileSync filePath in
  ret (base64_encode env imageBuffer).

(** The [switch (mimeType)] of [saveGeneratedImage]. *)
Definition extensionFor (mimeType : jsstring) : jsstring :=
  if decide (mimeType = lit "image/png") then lit ".png"
  else if decide (mimeType = lit "image/jpeg") then lit ".jpg"
  else if decide (mimeType = lit "image/jpg") then lit ".jpg"
  else if decide (mimeType = lit "image/gif") then lit ".gif"
  else lit ".png".

(** [saveGeneratedImage] of the server: writes below [generated] and
    returns the URL path of the file; an I/O error is thrown again. *)
Definition saveGeneratedImage (imageData mimeType filename : jsstring)
  : M jsstring :=
  try_catch
    (let extension := extensionFor mimeType in
     let filePath := path_join (lit "generated") (filename ++ extension) in
     let imageBuffer := base64_decode env imageData in
     let* _ := writeFileSync filePath imageBuffer in
     ret (lit "/generated/" ++ filename ++ extension))
    (fun error => throw error).

(** The start-up code of the server:
    [['uploads', 'generated'].forEach(dir => ...)]. *)
Definition ensureDirectory (dir : jsstring) : M unit :=
  let* there := existsSync dir in
  if negb there then mkdirSync dir false else ret tt.

Definition ensureDirectories : M unit :=
  let* _ := ensureDirectory (lit "uploads") in
  ensureDirectory (lit "generated").

(** [{ imageUrl, imageData }], the result of the two image generators;
    both fields are [null] when no image was obtained. *)
Record Generated := {
  imageUrl : option jsstring;
  imageData : option InlineData
}.

Definition noImage : Generated := {| imageUrl := None; imageData := None |}.

(** The first part of a response that carries inline data. *)
Fixpoint firstInlineData (ps : list ResponsePart) : option InlineData :=
  match ps with
  | [] => None
  | part :: ps' =>
      match inlineData part with
      | Some d => Some d
      | None => firstInlineData ps'
      end
  end.

(** [response.candidates[0].content.parts], when every field on the way
    is present. *)
Definition firstCandidateParts (response : GenResponse)
  : option (list ResponsePart) :=
  match candidates response with
  | Some (candidate :: _) =>
      match candidateContent candidate with
      | Some c => parts c
      | None => None
      end
  | _ => None
  end.

(** The [content] array of [generateStepImage]: the prompt, the
    reference sketch and the last entry of [previousStepsImagesData]
    when there is one. *)
Definition stepContent (stepDescription : jsstring)
    (referenceImageData : option InlineData)
    (previousStepsImagesData : list InlineData)
    (stepNumber totalSteps : nat) : list Part :=
  let imagePrompt := StepImagePrompt stepNumber totalSteps stepDescription in
  let content := [PText imagePrompt; PInline referenceImageData] in
  if (0 <? length previousStepsImagesData)%nat
  then content ++ [PInline (last previousStepsImagesData)]
  else content.

(** [generateStepImage]. [None] is the JavaScript [null] that the outer
    [catch] returns. *)
Definition generateStepImage (stepDescription : jsstring)
    (referenceImageData : option InlineData)
    (previousStepsImagesData : list InlineData)
    (stepNumber totalSteps : nat) : M (option Generated) :=
  try_catch
    (let content := stepContent stepDescription referenceImageData
                      previousStepsImagesData stepNumber totalSteps in
     let* imageResponse :=
       generateContent (lit "gemini-2.5-flash-image-preview") content in
     match firstCandidateParts imageResponse with
     | Some ps =>
         match firstInlineData ps with
         | Some d =>
             let* saved :=
               try_catch
                 (let* now := Date_now in
                  let filename := lit "step_" ++ decimal (N.of_nat stepNumber)
                                  ++ lit "_" ++ decimal now in
                  let* imageUrl :=
                    saveGeneratedImage (data d) (mimeType d) filename in
                  ret (Some {| imageUrl := Some imageUrl;
                               imageData := Some d |}))
                 (fun saveError => ret None) in
             match saved with
             | Some g => ret (Some g)
             | None => ret (Some noImage)
             end
         | None => ret (Some noImage)
         end
     | None => ret (Some noImage)
     end)
    (fun error => ret None).

Definition typeError (msg : string) : JsError :=
  {| name := TypeError; message := lit msg |}.

(** [analyzeImage]: any failure is thrown again. *)
Definition analyzeImage (imagePath : path) : M jsstring :=
  try_catch
    (let* imageBase64 := imageToBase64 imagePath in
     let* visionResponse :=
       generateContent (lit "gemini-1.5-flash")
         [PText VisionPrompt;
          PInline (Some {| data := imageBase64;
                           mimeType := lit "image/jpeg" |})] in
     lift (text visionResponse))
    (fun error => throw error).

(** [generateAudioNarration]: the placeholder. *)
Definition generateAudioNarration (text : jsstring) : M jsstring :=
  try_catch (ret (lit "audio_placeholder.mp3")) (fun error => throw error).

(** [generatePencilSketchFromImage]. The response is read without
    guards, so a missing field throws a [TypeError], which the [catch]
    turns into the empty result like every other failure. *)
Definition generatePencilSketchFromImage (imagePath : path)
    (difficulty : jsstring) : M Generated :=
  try_catch
    (let* imageBase64 := imageToBase64 imagePath in
     let* response :=
       generateContent (lit "gemini-2.5-flash-image-preview")
         [PText (SketchPrompt difficulty);
          PInline (Some {| data := imageBase64;
                           mimeType := lit "image/jpeg" |})] in
     match firstCandidateParts response with
     | None => throw (typeError "Cannot read properties of undefined")
     | Some ps =>
         match firstInlineData ps with
         | Some d =>
             let* now := Date_now in
             let filename := lit "reference_sketch_" ++ decimal now in
             let* imageUrl :=
               saveGeneratedImage (data d) (mimeType d) filename in
             ret {| imageUrl := Some imageUrl; imageData := Some d |}
         | None => ret noImage
         end
     end)
    (fun error => ret noImage).

(** [determineOptimalSteps] *)
Definition determineOptimalSteps (referenceImageData : option InlineData)
    (imageDescription : jsstring) : M Z :=
  try_catch
    (let content := [PText (StepCountPrompt imageDescription);
                     PInline referenceImageData] in
     let* response := generateContent (lit "gemini-1.5-flash") content in
     let* stepsText := lift (text response) in
     match parseInt (trim stepsText) with
     | None => ret 12
     | Some stepsNumber =>
         if (stepsNumber <? 8) || (stepsNumber >? 20)
         then ret 12
         else ret stepsNumber
     end)
    (fun error => ret 12).

(** [/^\d+\./] on a string: one digit or more, then a period. *)
Definition startsWithNumeral (s : jsstring) : bool :=
  match s with
  | c :: _ =>
      is_digit c &&
      match drop_while is_digit s with
      | 46%N :: _ => true
      | _ => false
      end
  | [] => false
  end.

(** [s.replace(/^\d+\.\s*/, '')]: the numeral, its period and the white
    space after it are removed; a string without them is unchanged. *)
Definition stripNumeral (s : jsstring) : jsstring :=
  if startsWithNumeral s
  then drop_while is_space (tail (drop_while is_digit s))
  else s.

(** The body of the loop over the lines of the plan: the text to push,
    if the line yields one. *)
Definition planLine (line : jsstring) : option jsstring :=
  let trimmedLine := trim line in
  if startsWithNumeral trimmedLine then
    let stepText := trim (stripNumeral trimmedLine) in
    if truthy stepText then Some stepText else None
  else None.

Definition filler : jsstring := lit "Continue adding details to your drawing.".

(** The parsing of the plan text: the entries of the numbered lines,
    padded with the filler and cut to [totalSteps]. *)
Definition parsePlan (planText : jsstring) (totalSteps : nat)
  : list jsstring :=
  let planSteps := omap planLine (split_lines planText) in
  let planSteps :=
    planSteps ++ replicate (totalSteps - length planSteps)%nat filler in
  take totalSteps planSteps.

Definition genericStep (i : nat) : jsstring :=
  lit "Work on part " ++ decimal (N.of_nat (i + 1))
  ++ lit " of your drawing.".

(** The plan of the [catch] branch. *)
Definition genericSteps (totalSteps : nat) : list jsstring :=
  List.map genericStep (seq 0 totalSteps).

(** [generateTutorialPlan]. [totalSteps] is a step count: the handler
    passes the result of [determineOptimalSteps]. *)
Definition generateTutorialPlan (referenceImageData : option InlineData)
    (imageDescription : jsstring) (totalSteps : nat) : M (list jsstring) :=
  try_catch
    (let content := [PText (PlanPrompt totalSteps imageDescription);
                     PInline referenceImageData] in
     let* response := generateContent (lit "gemini-1.5-flash") content in
     let* planText := lift (text response) in
     ret (parsePlan planText totalSteps))
    (fun error => ret (genericSteps totalSteps)).

(** An element of the [steps] array of the response. *)
Record StepRecord := {
  step : nat;
  description : jsstring;
  stepImageUrl : option jsstring;
  audio : option jsstring
}.

(** The two arrays the step loop works on. *)
Record LoopState := {
  steps : list StepRecord;
  previousStepsImagesData : list InlineData
}.

Definition initialLoopState : LoopState :=
  {| steps := []; previousStepsImagesData := [] |}.

(** [tutorialPlan[i] || `Work on part ${i + 1} of your drawing.`] *)
Definition stepDescriptionAt (tutorialPlan : list jsstring) (i : nat)
  : jsstring :=
  match tutorialPlan !! i with
  | Some s => if truthy s then s else genericStep i
  | None => genericStep i
  end.

(** The window after an iteration: a new image is pushed, and the oldest
    one is shifted out when more than two are held. *)
Definition pushRecent (previous : list InlineData)
    (imageData : option InlineData) : list InlineData :=
  match imageData with
  | Some d =>
      let pushed := previous ++ [d] in
      if (2 <? length pushed)%nat then tail pushed else pushed
  | None => previous
  end.

(** The part of an iteration that follows the call of
    [generateStepImage]. *)
Definition recordStep (st : LoopState) (currentStepNumber : nat)
    (stepDescription : jsstring) (g : Generated) : LoopState :=
  {| steps := steps st ++
       [{| step := currentStepNumber; description := stepDescription;
           stepImageUrl := imageUrl g; audio := None |}];
     previousStepsImagesData :=
       pushRecent (previousStepsImagesData st) (imageData g) |}.

Definition destructureNull : JsError :=
  typeError
    "Cannot destructure property 'imageUrl' of '(intermediate value)' as it is null.".

(** One iteration of the step loop, for the loop variable [i].  Taking
    [{ imageUrl, imageData }] out of [null] throws. *)
Definition stepIteration (referenceSketchData : option InlineData)
    (tutorialPlan : list jsstring) (totalSteps : nat)
    (i : nat) (st : LoopState) : M LoopState :=
  let currentStepNumber := (i + 1)%nat in
  let stepDescription := stepDescriptionAt tutorialPlan i in
  let* generated :=
    generateStepImage stepDescription referenceSketchData
      (previousStepsImagesData st) currentStepNumber totalSteps in
  match generated with
  | Some g => ret (recordStep st currentStepNumber stepDescription g)
  | None => throw destructureNull
  end.

(** [for (let i = 0; i < totalSteps; i++)], entered at [i] with
    [remaining] iterations to go. *)
Fixpoint stepLoop (referenceSketchData : option InlineData)
    (tutorialPlan : list jsstring) (totalSteps : nat)
    (remaining i : nat) (st : LoopState) : M LoopState :=
  match remaining with
  | O => ret st
  | S remaining' =>
      let* st' :=
        stepIteration referenceSketchData tutorialPlan totalSteps i st in
      stepLoop referenceSketchData tutorialPlan totalSteps
        remaining' (S i) st'
  end.

(** The loop that attaches the narration to every step, in order. *)
Fixpoint narrateSteps (steps : list StepRecord) : M (list StepRecord) :=
  match steps with
  | [] => ret []
  | s :: rest =>
      let* a := generateAudioNarration (description s) in
      let* rest' := narrateSteps rest in
      ret ({| step := step s; description := description s;
              stepImageUrl := stepImageUrl s; audio := Some a |} :: rest')
  end.

(** The request, as far as the handler reads it: [req.file] with its
    [path], and [req.body.difficulty]. *)
Record Request := {
  file : option path;
  difficulty : option jsstring
}.

Record SketchInfo := {
  sketchImageUrl : option jsstring;
  sketchDescription : jsstring;
  sketchAudio : option jsstring
}.

Inductive Body :=
| TutorialBody (sketch : SketchInfo) (steps : list StepRecord)
| ErrorBody (error : jsstring) (details : option jsstring).

Record Response := { status : nat; body : Body }.

Definition falsy (s : option jsstring) : bool :=
  match s with
  | Some s => negb (truthy s)
  | None => true
  end.

(** The handler of [POST /api/generate-tutorial]. *)
Definition generateTutorial (req : Request) : M Response :=
  try_catch
    (match file req with
     | None =>
         ret {| status := 400;
                body := ErrorBody (lit "No image provided") None |}
     | Some filePath =>
         match difficulty req with
         | Some level =>
           if truthy level then
             let* sketch := generatePencilSketchFromImage filePath level in
             let referenceSketchUrl := imageUrl sketch in
             let referenceSketchData := imageData sketch in
             if falsy referenceSketchUrl then
               throw {| name := PlainError;
                        message := lit
                          "Failed to generate the reference pencil sketch." |}
             else
               let* imageDescription := analyzeImage filePath in
               let* stepCount :=
                 determineOptimalSteps referenceSketchData imageDescription in
               let totalSteps := Z.to_nat stepCount in
               let* tutorialPlan :=
                 generateTutorialPlan referenceSketchData imageDescription
                   totalSteps in
               let* st :=
                 stepLoop referenceSketchData tutorialPlan totalSteps
                   totalSteps 0 initialLoopState in
               let* sketchAudio := generateAudioNarration imageDescription in
               let* narrated := narrateSteps (steps st) in
               ret {| status := 200;
                      body := TutorialBody
                        {| sketchImageUrl := referenceSketchUrl;
                           sketchDescription := imageDescription;
                           sketchAudio := Some sketchAudio |}
                        narrated |}
           else
             ret {| status := 400;
                    body := ErrorBody (lit "Difficulty level is required")
                              None |}
         | None =>
             ret {| status := 400;
                    body := ErrorBody (lit "Difficulty level is required")
                              None |}
         end
     end)
    (fun error =>
       ret {| status := 500;
              body := ErrorBody (lit "Failed to generate tutorial")
                        (Some (message error)) |}).

End Server.

(** ** The image-saving example

    The second [saveGeneratedImage] of the repository, from the file that
    shows how generated images are saved: it writes below
    [generated_images], creates that directory when it is missing, and
    returns the file path. *)

Module SavingExample.

Definition saveGeneratedImage (env : Env)
    (imageData mimeType filename : jsstring) : M jsstring :=
  try_catch
    (let extension := extensionFor mimeType in
     let filePath :=
       path_join (lit "generated_images") (filename ++ extension) in
     let dir := path_dirname filePath in
     let* there := existsSync dir in
     let* _ := if negb there then mkdirSync dir true else ret tt in
     let imageBuffer := base64_decode env imageData in
     let* _ := writeFileSync filePath imageBuffer in
     ret (path_text filePath))
    (fun error => throw error).

End SavingExample.

(** ** Runs of the step loop

    [LoopRun env ref plan total w0 i produced st w]: the loop that
    started in the world [w0] has completed [i] iterations and is in the
    state [st] and the world [w]; [produced] lists, step by step, the
    [imageData] that [generateStepImage] returned. *)

Inductive LoopRun (env : Env) (referenceSketchData : option InlineData)
    (tutorialPlan : list jsstring) (totalSteps : nat) (w0 : World)
  : nat -> list (option InlineData) -> LoopState -> World -> Prop :=
| run_start :
    LoopRun env referenceSketchData tutorialPlan totalSteps w0
      0 [] initialLoopState w0
| run_iteration i produced st w g w' :
    LoopRun env referenceSketchData tutorialPlan totalSteps w0
      i produced st w ->
    generateStepImage env (stepDescriptionAt tutorialPlan i)
      referenceSketchData (previousStepsImagesData st) (i + 1) totalSteps w
      = (Ok (Some g), w') ->
    LoopRun env referenceSketchData tutorialPlan totalSteps w0
      (S i) (produced ++ [imageData g])
      (recordStep st (i + 1) (stepDescriptionAt tutorialPlan i) g) w'.

(** The images among the results of the steps so far, oldest first. *)
Definition imagesOf (produced : list (option InlineData)) : list InlineData :=
  omap id produced.

(** The last two elements of a list. *)
Definition lastTwo {A} (l : list A) : list A := drop (length l - 2) l.

(** The image of the step just before, when that step produced one. *)
Definition previousImage (produced : list (option InlineData))
  : option InlineData :=
  mjoin (last produced).

(** The image of the latest step that produced one. *)
Definition latestImage (produced : list (option InlineData))
  : option InlineData :=
  last (imagesOf produced).

(** The part of a step request that follows the prompt and the
    reference sketch, when the most recent image is [recent]. *)
Definition recentPart (recent : option InlineData) : list Part :=
  match recent with
  | Some d => [PInline (Some d)]
  | None => []
  end.

(** ** Requests and plan entries, named

    The three requests that the properties below speak of, and the
    entries of a plan text as the specification describes them. *)

(** The request of [determineOptimalSteps]. *)
Definition stepCountCall (referenceImageData : option InlineData)
    (imageDescription : jsstring) : Call :=
  {| model := lit "gemini-1.5-flash";
     content := [PText (StepCountPrompt imageDescription);
                 PInline referenceImageData] |}.

(** The request of [generateTutorialPlan]. *)
Definition planCall (referenceImageData : option InlineData)
    (imageDescription : jsstring) (totalSteps : nat) : Call :=
  {| model := lit "gemini-1.5-flash";
     content := [PText (PlanPrompt totalSteps imageDescription);
                 PInline referenceImageData] |}.

(** A request to the step-image model: the prompt of the step, the
    reference sketch, and [extra]. *)
Definition stepImageCall (stepDescription : jsstring)
    (referenceImageData : option InlineData) (stepNumber totalSteps : nat)
    (extra : list Part) : Call :=
  {| model := lit "gemini-2.5-flash-image-preview";
     content := [PText (StepImagePrompt stepNumber totalSteps stepDescription);
                 PInline referenceImageData] ++ extra |}.

(** The file name of a step image saved at the time [now]. *)
Definition stepFilename (stepNumber : nat) (now : N) : jsstring :=
  lit "step_" ++ decimal (N.of_nat stepNumber) ++ lit "_" ++ decimal now.

Definition placeholder : jsstring := lit "audio_placeholder.mp3".

(** A step record with the narration attached. *)
Definition narrated (s : StepRecord) : StepRecord :=
  {| step := step s; description := description s;
     stepImageUrl := stepImageUrl s; audio := Some placeholder |}.

(** A line is numbered when, trimmed, it starts with digits and a
    period. *)
Definition isNumbered (line : jsstring) : bool :=
  startsWithNumeral (trim line).

(** The entry of a numbered line: the line without its numeral and
    without the white space around. *)
Definition entryOf (line : jsstring) : jsstring :=
  trim (stripNumeral (trim line)).

(** Every numbered line of the text gives an entry, in the order of the
    lines. *)
Definition numberedEntries (planText : jsstring) : list jsstring :=
  List.map entryOf (List.filter isNumbered (split_lines planText)).

(** The entries that are not empty. *)
Definition keptEntries (planText : jsstring) : list jsstring :=
  List.filter truthy (numberedEntries planText).

(** The reading of the step requests by which a step sees the image of
    the step just before and no older one: after every run of the loop,
    the next request carries the prompt, the reference sketch and
    [previousImage]. *)
Definition OnlyPreviousStep (env : Env)
    (referenceSketchData : option InlineData) (tutorialPlan : list jsstring)
    (totalSteps : nat) (w0 : World) : Prop :=
  forall i produced st w r w',
    LoopRun env referenceSketchData tutorialPlan totalSteps w0
      i produced st w ->
    (1 <= i)%nat ->
    generateStepImage env (stepDescriptionAt tutorialPlan i)
      referenceSketchData (previousStepsImagesData st) (i + 1) totalSteps w
    = (r, w') ->
    calls w' = calls w ++
      [stepImageCall (stepDescriptionAt tutorialPlan i) referenceSketchData
         (i + 1) totalSteps (recentPart (previousImage produced))].

(** ** Further vocabulary *)

(** The request of [generatePencilSketchFromImage] for an upload whose
    base64 text is [imageBase64]. *)
Definition sketchCall (difficulty imageBase64 : jsstring) : Call :=
  {| model := lit "gemini-2.5-flash-image-preview";
     content := [PText (SketchPrompt difficulty);
                 PInline (Some {| data := imageBase64;
                                  mimeType := lit "image/jpeg" |})] |}.

(** The request of [analyzeImage]. *)
Definition visionCall (imageBase64 : jsstring) : Call :=
  {| model := lit "gemini-1.5-flash";
     content := [PText VisionPrompt;
                 PInline (Some {| data := imageBase64;
                                  mimeType := lit "image/jpeg" |})] |}.

(** The file name of a reference sketch saved at the time [now]. *)
Definition sketchFilename (now : N) : jsstring :=
  lit "reference_sketch_" ++ decimal now.

(** From [w] to [w'] no directory was created or removed, and no file
    outside the directory [generated] was written. *)
Definition OnlyGeneratedWritten (w w' : World) : Prop :=
  dirs w' = dirs w /\
  forall p : path, fst p <> lit "generated" -> files w' !! p = files w !! p.

(** The body of a response with status 500. *)
Definition failure (details : jsstring) : Response :=
  {| status := 500;
     body := ErrorBody (lit "Failed to generate tutorial") (Some details) |}.

(** The body of a response with status 400. *)
Definition rejection (error : jsstring) : Response :=
  {| status := 400; body := ErrorBody error None |}.

(** From [w] to [w'] no file disappeared. *)
Definition FilesKept (w w' : World) : Prop :=
  forall p : path, is_Some (files w !! p) -> is_Some (files w' !! p).

(** A computation respects a relation between worlds when, from every
    world, it ends in a related world, whether it returns or throws. *)
Definition Respects {A} (R : World -> World -> Prop) (m : M A) : Prop :=
  forall w, R w (snd (m w)).

(** A step record whose image can be fetched in the world [w]: it has no
    URL, or its URL names the step and a file that exists below
    [generated]. *)
Definition servedIn (w : World) (s : StepRecord) : Prop :=
  stepImageUrl s = None \/
  exists now extension,
    stepImageUrl s
    = Some (lit "/generated/" ++ stepFilename (step s) now ++ extension) /\
    is_Some (files w !! (lit "generated",
                         stepFilename (step s) now ++ extension)).

(** A record and the result of its step: no narration yet; no URL when
    the step produced no image, and otherwise a URL that names the
    step and has the extension of the image. *)
Definition recordOf (s : StepRecord) (r : option InlineData) : Prop :=
  audio s = None /\
  match r with
  | None => stepImageUrl s = None
  | Some d =>
      exists now,
        stepImageUrl s
        = Some (lit "/generated/" ++ stepFilename (step s) now
                ++ extensionFor (mimeType d))
  end.

(** The request reached the step loop: it carried a file and a
    difficulty, the sketch, the description, the step count and the plan
    were obtained, in this order, and the loop starts in the world
    [w4]. *)
Definition ReachesLoop (env : Env) (req : Request) (w : World)
    (sketchUrl : jsstring) (sketchData : option InlineData)
    (imageDescription : jsstring) (plan : list jsstring) (totalSteps : nat)
    (w4 : World) : Prop :=
  exists filePath level sketch w1 w2 stepCount w3,
    file req = Some filePath /\
    difficulty req = Some level /\
    truthy level = true /\
    generatePencilSketchFromImage env filePath level w = (Ok sketch, w1) /\
    imageUrl sketch = Some sketchUrl /\
    truthy sketchUrl = true /\
    imageData sketch = sketchData /\
    analyzeImage env filePath w1 = (Ok imageDescription, w2) /\
    determineOptimalSteps env sketchData imageDescription w2
    = (Ok stepCount, w3) /\
    totalSteps = Z.to_nat stepCount /\
    generateTutorialPlan env sketchData imageDescription totalSteps w3
    = (Ok plan, w4).

(** The response with status 200 for a sketch and a state of the step
    loop. *)
Definition tutorial (sketchUrl imageDescription : jsstring) (st : LoopState)
  : Response :=
  {| status := 200;
     body := TutorialBody
               {| sketchImageUrl := Some sketchUrl;
                  sketchDescription := imageDescription;
                  sketchAudio := Some placeholder |}
               (narrated <$> steps st) |}.

Definition sketchFailed : jsstring :=
  lit "Failed to generate the reference pencil sketch.".

(** The number that the digits [d] continue, [acc] being the number read
    before them. *)
Fixpoint uint_value (d : Decimal.uint) (acc : Z) : Z :=
  match d with
  | Decimal.Nil => acc
  | Decimal.D0 d => uint_value d (10 * acc)
  | Decimal.D1 d => uint_value d (10 * acc + 1)
  | Decimal.D2 d => uint_value d (10 * acc + 2)
  | Decimal.D3 d => uint_value d (10 * acc + 3)
  | Decimal.D4 d => uint_value d (10 * acc + 4)
  | Decimal.D5 d => uint_value d (10 * acc + 5)
  | Decimal.D6 d => uint_value d (10 * acc + 6)
  | Decimal.D7 d => uint_value d (10 * acc + 7)
  | Decimal.D8 d => uint_value d (10 * acc + 8)
  | Decimal.D9 d => uint_value d (10 * acc + 9)
  end.

(** ** Concrete requests and environments *)

Module Scenario.

Definition image (tag : string) : InlineData :=
  {| data := lit tag; mimeType := lit "image/png" |}.

Definition imageResponse (d : InlineData) : GenResponse :=
  {| candidates :=
       Some [{| candidateContent :=
                  Some {| parts := Some [{| inlineData := Some d;
                                            partText := None |}] |} |}];
     text := Ok [] |}.

Definition textResponse (s : jsstring) : GenResponse :=
  {| candidates :=
       Some [{| candidateContent :=
                  Some {| parts := Some [{| inlineData := None;
                                            partText := Some s |}] |} |}];
     text := Ok s |}.

Definition unavailable : JsError :=
  {| name := ApiError; message := lit "503 Service Unavailable" |}.

Definition reference : InlineData := image "c2tldGNo".

Definition stepImage (n : nat) : InlineData :=
  {| data := lit "c3RlcA" ++ decimal (N.of_nat n);
     mimeType := lit "image/jpeg" |}.

Definition newline : jsstring := [10%N].

Definition planText : jsstring :=
  lit "Here is the plan:" ++ newline
  ++ lit "1. Draw a circle for the head." ++ newline
  ++ lit "  2.   Add two small circles for the eyes.  " ++ newline
  ++ lit "3." ++ newline
  ++ lit "4. Draw a curved line for the smile.".

(** The model's answers by request number: the sketch, the description,
    the step count and the plan, then one answer for each step. *)
Definition answers (count plan : result GenResponse)
    (stepAnswer : nat -> result GenResponse)
  : nat -> Call -> result GenResponse :=
  fun n _ =>
    match n with
    | 0%nat => Ok (imageResponse reference)
    | 1%nat => Ok (textResponse (lit "A cat sitting on a windowsill."))
    | 2%nat => count
    | 3%nat => plan
    | S (S (S (S k))) => stepAnswer (S k)
    end.

(** An environment with these answers; the identity stands for the
    base64 codec. *)
Definition environment (count plan : result GenResponse)
    (stepAnswer : nat -> result GenResponse) : Env :=
  {| gemini := answers count plan stepAnswer;
     clock := fun n => (1700000000000 + N.of_nat n)%N;
     base64_decode := fun s => s;
     base64_encode := fun b => b |}.

Definition upload : path := (lit "uploads", lit "1700000000000.png").

(** The world after start-up and the upload. *)
Definition world : World :=
  {| dirs := {[ lit "uploads"; lit "generated" ]};
     files := {[ upload := [137; 80; 78; 71]%N ]};
     calls := [];
     readings := 0 |}.

(** The same, after the directory of generated images was removed. *)
Definition worldWithoutGenerated : World :=
  {| dirs := {[ lit "uploads" ]};
     files := {[ upload := [137; 80; 78; 71]%N ]};
     calls := [];
     readings := 0 |}.

Definition request : Request :=
  {| file := Some upload; difficulty := Some (lit "beginner") |}.

Definition everyStep : nat -> result GenResponse :=
  fun n => Ok (imageResponse (stepImage n)).

(** An environment in which the model gives the same answer to every
    request. *)
Definition constant (answer : result GenResponse) : Env :=
  {| gemini := fun _ _ => answer;
     clock := fun n => (1700000000000 + N.of_nat n)%N;
     base64_decode := fun s => s;
     base64_encode := fun b => b |}.

(** A plan whose first numbered line has no text. *)
Definition bareNumeral : jsstring :=
  lit "1." ++ newline ++ lit "2. Draw a circle.".

(** Every call succeeds: eight steps, a plan with three usable lines. *)
Definition fine : Env :=
  environment (Ok (textResponse (lit " 8 "))) (Ok (textResponse planText))
    everyStep.

(** The model is unavailable for the image of step 3. *)
Definition stepFails : Env :=
  environment (Ok (textResponse (lit "8"))) (Ok (textResponse planText))
    (fun n => if decide (n = 3%nat) then Err unavailable else everyStep n).

(** The model is unavailable for the plan and for the image of step 1. *)
Definition planAndStepFail : Env :=
  environment (Ok (textResponse (lit "8"))) (Err unavailable)
    (fun n => if decide (n = 1%nat) then Err unavailable else everyStep n).

(** The model is unavailable for the plan only. *)
Definition planFails : Env :=
  environment (Ok (textResponse (lit "8"))) (Err unavailable) everyStep.

(** Step 2 comes back without an image. *)
Definition stepTwoEmpty : Env :=
  environment (Ok (textResponse (lit "8"))) (Ok (textResponse planText))
    (fun n => if decide (n = 2%nat)
              then Ok (textResponse (lit "I cannot draw this."))
              else everyStep n).

(** The reference sketch, the description and the plan of these
    environments, and the world in which the step loop starts. *)
Definition sketchData : option InlineData := Some reference.

Definition catDescription : jsstring := lit "A cat sitting on a windowsill.".

Definition plan : list jsstring := parsePlan planText 8.

Definition described (env : Env) : World :=
  snd (analyzeImage env upload
         (snd (generatePencilSketchFromImage env upload (lit "beginner")
                 world))).

Definition counted (env : Env) : World :=
  snd (determineOptimalSteps env sketchData catDescription (described env)).

Definition planned (env : Env) : World :=
  snd (generateTutorialPlan env sketchData catDescription 8 (counted env)).

(** The step loop of the handler, cut after [n] iterations. *)
Definition afterSteps (env : Env) (n : nat) : result LoopState * World :=
  stepLoop env sketchData plan 8 n 0 initialLoopState (planned env).

Definition stateAfter (env : Env) (n : nat) : LoopState :=
  match fst (afterSteps env n) with
  | Ok st => st
  | Err _ => initialLoopState
  end.

Definition worldAfter (env : Env) (n : nat) : World := snd (afterSteps env n).

(** The response to the request when every call succeeds. *)
Definition fineResponse : Response :=
  match fst (generateTutorial fine request world) with
  | Ok resp => resp
  | Err _ => {| status := 0; body := ErrorBody [] None |}
  end.

Definition fineWorld : World := snd (generateTutorial fine request world).

End Scenario.

(** ** More environments *)

Module Outage.

Import Scenario.

(** The model draws the sketch and is unavailable from then on. *)
Definition afterSketch : Env :=
  {| gemini := fun n _ =>
       match n with
       | 0%nat => Ok (imageResponse reference)
       | _ => Err unavailable
       end;
     clock := fun n => (1700000000000 + N.of_nat n)%N;
     base64_decode := fun s => s;
     base64_encode := fun b => b |}.

(** The sketch that the environments of [Scenario] produce. *)
Definition sketchUrl : jsstring :=
  lit "/generated/reference_sketch_1700000000000.png".

Definition sketch : Generated :=
  {| imageUrl := Some sketchUrl; imageData := Some reference |}.

(** The world after the sketch was saved. *)
Definition sketched (env : Env) : World :=
  snd (generatePencilSketchFromImage env upload (lit "beginner") world).

(** The model is unavailable for the plan, and for nothing else: it
    draws whenever it is asked for an image, describes the upload and
    counts eight steps. *)
Definition planOnly : Env :=
  {| gemini := fun n c =>
       if decide (model c = lit "gemini-2.5-flash-image-preview")
       then Ok (imageResponse (match n with
                               | 0%nat => reference
                               | _ => stepImage (n - 3)
                               end))
       else match n with
            | 1%nat => Ok (textResponse catDescription)
            | 2%nat => Ok (textResponse (lit "8"))
            | _ => Err unavailable
            end;
     clock := fun n => (1700000000000 + N.of_nat n)%N;
     base64_decode := fun s => s;
     base64_encode := fun b => b |}.

(** A request for a file that is not there. *)
Definition lostUpload : Request :=
  {| file := Some (lit "uploads", lit "gone.png");
     difficulty := Some (lit "beginner") |}.

(** A request without a difficulty. *)
Definition noDifficulty : Request :=
  {| file := Some upload; difficulty := Some [] |}.

End Outage.


(** * Properties *)

(** ** Computations *)

Section Computations.

Context {A B : Type}.

Lemma bind_ok (m : M A) (f : A -> M B) w a w1 :
  m w = (Ok a, w1) -> bind m f w = f a w1.
Proof. intros H. unfold bind. by rewrite H. Qed.

Lemma bind_err (m : M A) (f : A -> M B) w e w1 :
  m w = (Err e, w1) -> bind m f w = (Err e, w1).
Proof. intros H. unfold bind. by rewrite H. Qed.

Lemma bind_ok_inv (m : M A) (f : A -> M B) w b w' :
  bind m f w = (Ok b, w') ->
  exists a w1, m w = (Ok a, w1) /\ f a w1 = (Ok b, w').
Proof.
  unfold bind. destruct (m w) as [[a|e] w1]; intros H.
  - by exists a, w1.
  - discriminate.
Qed.

Lemma try_catch_ok (m : M A) (h : JsError -> M A) w a w1 :
  m w = (Ok a, w1) -> try_catch m h w = (Ok a, w1).
Proof. intros H. unfold try_catch. by rewrite H. Qed.

Lemma try_catch_err (m : M A) (h : JsError -> M A) w e w1 :
  m w = (Err e, w1) -> try_catch m h w = h e w1.
Proof. intros H. unfold try_catch. by rewrite H. Qed.

(** A [catch] that throws the error again changes nothing. *)
Lemma try_catch_rethrow (m : M A) w :
  try_catch m (fun error => throw error) w = m w.
Proof. unfold try_catch, throw. by destruct (m w) as [[a|e] w1]. Qed.

End Computations.

(** Two facts about the same answer of the environment are brought
    together. *)
Ltac same_answer :=
  simplify_eq;
  repeat match goal with
         | H1 : ?x = _, H2 : ?x = _ |- _ => rewrite H1 in H2; simplify_eq
         end;
  try done.

(** A run that ended with a response of another status than the one
    assumed. *)
Ltac other_status Hrun Hstatus :=
  unfold ret, throw in Hrun; cbv beta iota in Hrun;
  injection Hrun as <- <-; cbn [status] in Hstatus; discriminate Hstatus.

(** ** The step count *)

Section StepCount.

Context (env : Env).

(** C3: whatever the model does, [determineOptimalSteps] returns a count
    between 8 and 20 and never throws.  It is 12 when the call or
    [response.text()] throws, when the trimmed text does not parse as an
    integer, and when the integer is below 8 or above 20; otherwise it is
    the parsed integer. *)
Theorem determineOptimalSteps_result referenceImageData imageDescription w :
  exists stepCount,
    fst (determineOptimalSteps env referenceImageData imageDescription w)
      = Ok stepCount /\
    8 <= stepCount <= 20 /\
    let answer :=
      gemini env (length (calls w))
        (stepCountCall referenceImageData imageDescription) in
    (forall e, answer = Err e -> stepCount = 12) /\
    (forall response e,
        answer = Ok response -> text response = Err e -> stepCount = 12) /\
    (forall response stepsText,
        answer = Ok response -> text response = Ok stepsText ->
        (parseInt (trim stepsText) = None -> stepCount = 12) /\
        (forall n, parseInt (trim stepsText) = Some n ->
                   n < 8 \/ 20 < n -> stepCount = 12) /\
        (forall n, parseInt (trim stepsText) = Some n ->
                   8 <= n <= 20 -> stepCount = n)).
Proof.
  unfold determineOptimalSteps, try_catch, bind, generateContent, lift, ret,
    stepCountCall.
  cbn zeta.
  destruct (gemini env _ _) as [response|e0] eqn:Hanswer; cbn;
    [destruct (text response) as [stepsText|e1] eqn:Htext; cbn;
      [destruct (parseInt (trim stepsText)) as [n|] eqn:Hparse; cbn;
        [destruct ((n <? 8) || (n >? 20)) eqn:Hrange; cbn|]|]|].
  - apply orb_true_iff in Hrange.
    rewrite Z.gtb_ltb, !Z.ltb_lt in Hrange.
    exists 12. repeat split; try lia; intros; same_answer; lia.
  - apply orb_false_iff in Hrange.
    rewrite Z.gtb_ltb, !Z.ltb_ge in Hrange.
    exists n. repeat split; try lia; intros; same_answer; lia.
  - exists 12. repeat split; try lia; intros; same_answer.
  - exists 12. repeat split; try lia; intros; same_answer.
  - exists 12. repeat split; try lia; intros; same_answer.
Qed.

End StepCount.

(** ** The plan *)

Section Plan.

Context (env : Env).

(** What [/^\d+\./] accepts: digits, at least one, and a period. *)
Lemma startsWithNumeral_iff s :
  startsWithNumeral s = true <->
  exists digits rest,
    digits <> [] /\ forallb is_digit digits = true /\
    s = digits ++ 46%N :: rest.
Proof.
  split.
  - destruct s as [|c s]; [done|]. unfold startsWithNumeral.
    intros [Hc Hdot]%andb_true_iff.
    remember (c :: s) as t eqn:Ht.
    assert (exists digits rest, forallb is_digit digits = true /\
              t = digits ++ rest /\ drop_while is_digit t = rest /\
              (digits = [] -> forall x r, t = x :: r -> is_digit x = false))
      as (digits & rest & Hd & Hsplit & Hdrop & Hfirst).
    { clear. induction t as [|x t IH].
      - by exists [], [].
      - cbn. destruct (is_digit x) eqn:Hx.
        + destruct IH as (digits & rest & Hd & -> & Hdrop & _).
          exists (x :: digits), rest. cbn. rewrite Hx, Hd. by repeat split.
        + exists [], (x :: t). repeat split. intros _ y r [= <- <-]. done. }
    rewrite Hdrop in Hdot. destruct rest as [|[|p] rest]; try done.
    destruct (decide (p = 46%positive)) as [->|Hp].
    + exists digits, rest. repeat split; [|done..].
      intros ->. specialize (Hfirst eq_refl c s Ht). congruence.
    + exfalso. clear -Hdot Hp.
      do 6 (destruct p as [p|p|]; try done).
  - intros (digits & rest & Hne & Hd & ->).
    destruct digits as [|c digits]; [done|]. cbn in Hd.
    apply andb_true_iff in Hd as [Hc Hd].
    unfold startsWithNumeral.
    change ((c :: digits) ++ 46%N :: rest)
      with (c :: (digits ++ 46%N :: rest)).
    cbn beta iota. cbn [drop_while]. rewrite Hc. cbn [andb].
    clear Hc Hne. induction digits as [|x digits IH]; [done|].
    cbn in Hd. apply andb_true_iff in Hd as [Hx Hd].
    cbn. rewrite Hx. by apply IH.
Qed.

(** What [replace(/^\d+\.\s*/, '')] leaves of such a line. *)
Lemma stripNumeral_numbered digits rest :
  digits <> [] -> forallb is_digit digits = true ->
  stripNumeral (digits ++ 46%N :: rest) = trimStart rest.
Proof.
  intros Hne Hd. unfold stripNumeral.
  assert (startsWithNumeral (digits ++ 46%N :: rest) = true) as ->.
  { apply startsWithNumeral_iff. by exists digits, rest. }
  clear Hne. induction digits as [|x digits IH]; [done|].
  cbn in Hd. apply andb_true_iff in Hd as [Hx Hd].
  cbn. rewrite Hx. by apply IH.
Qed.

(** The loop over the lines collects the entries of the numbered lines
    that are not empty. *)
Lemma planLines_kept planText :
  omap planLine (split_lines planText) = keptEntries planText.
Proof.
  unfold keptEntries, numberedEntries.
  induction (split_lines planText) as [|line ls IH]; [done|].
  cbn. unfold planLine at 1. fold (isNumbered line).
  destruct (isNumbered line); cbn; [|done].
  fold (entryOf line). destruct (truthy (entryOf line)); cbn; by rewrite IH.
Qed.

Lemma keptEntries_nonempty planText :
  Forall (fun s => s <> []) (keptEntries planText).
Proof.
  unfold keptEntries. apply Forall_forall. intros s Hs.
  apply list_elem_of_In, filter_In in Hs as [_ Hs]. by destruct s.
Qed.

(** The three parts of the parser's contract, for every text. *)
Lemma parsePlan_spec planText totalSteps :
  let kept := keptEntries planText in
  length (parsePlan planText totalSteps) = totalSteps /\
  Forall (fun s => s <> []) (parsePlan planText totalSteps) /\
  ((length kept <= totalSteps)%nat ->
     parsePlan planText totalSteps
     = kept ++ replicate (totalSteps - length kept) filler) /\
  ((totalSteps <= length kept)%nat ->
     parsePlan planText totalSteps = take totalSteps kept).
Proof.
  intros kept. unfold parsePlan. rewrite planLines_kept. fold kept.
  repeat split.
  - rewrite length_take, length_app, length_replicate. lia.
  - apply Forall_take, Forall_app. split.
    + apply keptEntries_nonempty.
    + by apply Forall_replicate.
  - intros Hle. apply take_ge.
    rewrite length_app, length_replicate. lia.
  - intros Hle. replace (totalSteps - length kept)%nat with 0%nat by lia.
    cbn. by rewrite app_nil_r.
Qed.


(** When the call of the model throws, or [response.text()] does, the
    plan is the generic one. *)
Lemma generateTutorialPlan_generic referenceImageData imageDescription
    totalSteps w :
  (forall response,
      gemini env (length (calls w))
        (planCall referenceImageData imageDescription totalSteps)
      = Ok response -> exists e, text response = Err e) ->
  fst (generateTutorialPlan env referenceImageData imageDescription
         totalSteps w) = Ok (genericSteps totalSteps).
Proof.
  intros Hfail.
  unfold generateTutorialPlan, try_catch, bind, generateContent, lift, ret.
  cbn zeta. unfold planCall in Hfail.
  destruct (gemini env _ _) as [response|e]; [|done].
  destruct (Hfail response eq_refl) as [e ->]. done.
Qed.

Lemma genericSteps_spec totalSteps :
  length (genericSteps totalSteps) = totalSteps /\
  forall i, (i < totalSteps)%nat ->
    genericSteps totalSteps !! i
    = Some (lit "Work on part " ++ decimal (N.of_nat (i + 1))
            ++ lit " of your drawing.").
Proof.
  unfold genericSteps. split.
  - by rewrite length_map, length_seq.
  - intros i Hi. rewrite list_lookup_fmap, lookup_seq_lt by done. done.
Qed.

End Plan.

(** ** The artifact store *)

Section Store.

Context (env : Env).

Lemma writeFileSync_there p b w :
  path_dirname p ∈ dirs w -> writeFileSync p b w = (Ok tt, put_file p b w).
Proof. intros H. unfold writeFileSync. by rewrite bool_decide_eq_true_2. Qed.

Lemma writeFileSync_missing p b w :
  path_dirname p ∉ dirs w -> writeFileSync p b w = (Err (enoent p), w).
Proof. intros H. unfold writeFileSync. by rewrite bool_decide_eq_false_2. Qed.

(** The server's store, by cases on the directory. *)
Lemma saveGeneratedImage_cases imageData mimeType filename w :
  let file := filename ++ extensionFor mimeType in
  saveGeneratedImage env imageData mimeType filename w =
  if bool_decide (lit "generated" ∈ dirs w)
  then (Ok (lit "/generated/" ++ file),
        put_file (lit "generated", file) (base64_decode env imageData) w)
  else (Err (enoent (lit "generated", file)), w).
Proof.
  intros file. unfold saveGeneratedImage. rewrite try_catch_rethrow.
  unfold bind, ret, path_join. cbn zeta. fold file.
  case_bool_decide as Hdir.
  - by rewrite writeFileSync_there.
  - by rewrite writeFileSync_missing.
Qed.

(** Storing an image sends nothing to the model and does not read the
    clock. *)
Lemma saveGeneratedImage_quiet imageData mimeType filename w r w' :
  saveGeneratedImage env imageData mimeType filename w = (r, w') ->
  calls w' = calls w /\ readings w' = readings w.
Proof.
  rewrite saveGeneratedImage_cases. cbn zeta.
  case_bool_decide; intros Hsave; by simplify_eq.
Qed.

Lemma ensureDirectory_creates dir w :
  exists w', ensureDirectory dir w = (Ok tt, w') /\
             dirs w' = {[ dir ]} ∪ dirs w.
Proof.
  unfold ensureDirectory, bind, existsSync, mkdirSync, ret.
  case_bool_decide as Hdir; cbn.
  - exists w. split; [done|].
    symmetry. apply subseteq_union_1_L. by apply singleton_subseteq_l.
  - rewrite bool_decide_eq_false_2 by done. by exists (add_dir dir w).
Qed.

(** C7, as the code has it, for the file names the server builds.  The
    store of the image-saving example creates its directory when it is
    missing and so succeeds in every state of the file system, leaving
    the decoded bytes in the file.  The store of the server creates
    nothing: it succeeds when the directory [generated] is there, which
    the start-up code of the server sees to, and throws the error of the
    write when it is not. *)
Theorem store_and_directory imageData mimeType filename w :
  plainName filename = true ->
  let file := filename ++ extensionFor mimeType in
  (exists w',
      SavingExample.saveGeneratedImage env imageData mimeType filename w
      = (Ok (lit "generated_images/" ++ file), w') /\
      lit "generated_images" ∈ dirs w' /\
      files w' !! (lit "generated_images", file)
      = Some (base64_decode env imageData)) /\
  (lit "generated" ∈ dirs w ->
   exists w',
      saveGeneratedImage env imageData mimeType filename w
      = (Ok (lit "/generated/" ++ file), w') /\
      dirs w' = dirs w /\
      files w' !! (lit "generated", file)
      = Some (base64_decode env imageData)) /\
  (lit "generated" ∉ dirs w ->
   saveGeneratedImage env imageData mimeType filename w
   = (Err (enoent (lit "generated", file)), w)) /\
  (exists w', ensureDirectories w = (Ok tt, w') /\
              lit "generated" ∈ dirs w').
Proof.
  intros _ file. repeat split.
  - unfold SavingExample.saveGeneratedImage. rewrite try_catch_rethrow.
    unfold bind, existsSync, mkdirSync, ret, path_join, path_dirname.
    cbn zeta. cbn [fst]. fold file.
    case_bool_decide as Hdir; cbn [negb].
    + rewrite writeFileSync_there by done.
      eexists. split; [reflexivity|]. split; [done|].
      cbn. apply lookup_insert_eq.
    + rewrite bool_decide_eq_false_2 by done.
      rewrite writeFileSync_there by (cbn; set_solver).
      eexists. split; [reflexivity|]. split; [cbn; set_solver|].
      cbn. apply lookup_insert_eq.
  - intros Hdir. rewrite saveGeneratedImage_cases. cbn zeta. fold file.
    rewrite bool_decide_eq_true_2 by done.
    eexists. split; [reflexivity|]. split; [done|].
    cbn. apply lookup_insert_eq.
  - intros Hdir. rewrite saveGeneratedImage_cases. cbn zeta. fold file.
    by rewrite bool_decide_eq_false_2.
  - unfold ensureDirectories, bind.
    destruct (ensureDirectory_creates (lit "uploads") w) as (w1 & H1 & _).
    destruct (ensureDirectory_creates (lit "generated") w1) as (w2 & H2 & Hd).
    rewrite H1, H2. exists w2. split; [done|]. rewrite Hd.
    by apply elem_of_union_l, elem_of_singleton_2.
Qed.

End Store.

(** ** The image of a step *)

Section StepImage.

Context (env : Env).

Lemma stepContent_recent stepDescription referenceImageData previous
    stepNumber totalSteps :
  {| model := lit "gemini-2.5-flash-image-preview";
     content := stepContent stepDescription referenceImageData previous
                  stepNumber totalSteps |}
  = stepImageCall stepDescription referenceImageData stepNumber totalSteps
      (recentPart (last previous)).
Proof.
  unfold stepContent, stepImageCall. f_equal.
  destruct previous as [|d previous] using rev_ind; [done|].
  rewrite length_app, last_snoc. cbn [length recentPart].
  by replace (0 <? length previous + 1)%nat with true
    by (symmetry; apply Nat.ltb_lt; lia).
Qed.

(** [generateStepImage], outcome by outcome: the request is sent; when
    the model throws the result is [null]; when the answer carries an
    image and the image is saved the result is the pair of its URL and
    its data; in every other case the result is the pair of nulls. *)
Lemma generateStepImage_cases stepDescription referenceImageData previous
    stepNumber totalSteps w :
  let c := stepImageCall stepDescription referenceImageData stepNumber
             totalSteps (recentPart (last previous)) in
  let sent := log_call c w in
  generateStepImage env stepDescription referenceImageData previous
    stepNumber totalSteps w =
  match gemini env (length (calls w)) c with
  | Err e => (Ok None, sent)
  | Ok response =>
      match firstCandidateParts response with
      | Some ps =>
          match firstInlineData ps with
          | Some d =>
              match saveGeneratedImage env (data d) (mimeType d)
                      (stepFilename stepNumber (clock env (readings w)))
                      (tick sent) with
              | (Ok url, w') =>
                  (Ok (Some {| imageUrl := Some url; imageData := Some d |}),
                   w')
              | (Err e, w') => (Ok (Some noImage), w')
              end
          | None => (Ok (Some noImage), sent)
          end
      | None => (Ok (Some noImage), sent)
      end
  end.
Proof.
  intros c sent.
  unfold generateStepImage, try_catch, bind, generateContent, Date_now, ret.
  cbn zeta. rewrite stepContent_recent. fold c. fold sent.
  destruct (gemini env _ c) as [response|e]; [|done].
  destruct (firstCandidateParts response) as [ps|]; [|done].
  destruct (firstInlineData ps) as [d|]; [|done].
  change (readings sent) with (readings w). unfold stepFilename.
  by destruct (saveGeneratedImage _ _ _ _ _) as [[url|e] w'].
Qed.

(** [generateStepImage] never throws, and sends exactly one request. *)
Lemma generateStepImage_sends stepDescription referenceImageData previous
    stepNumber totalSteps w :
  exists r w',
    generateStepImage env stepDescription referenceImageData previous
      stepNumber totalSteps w = (Ok r, w') /\
    calls w' = calls w ++
      [stepImageCall stepDescription referenceImageData stepNumber
         totalSteps (recentPart (last previous))].
Proof.
  rewrite generateStepImage_cases. cbn zeta.
  destruct (gemini env _ _) as [response|e]; [|by eexists _, _].
  destruct (firstCandidateParts response) as [ps|]; [|by eexists _, _].
  destruct (firstInlineData ps) as [d|]; [|by eexists _, _].
  destruct (saveGeneratedImage _ _ _ _ _) as [r w'] eqn:Hsave.
  apply saveGeneratedImage_quiet in Hsave as [Hcalls _].
  destruct r; eexists _, _; (split; [reflexivity|by rewrite Hcalls]).
Qed.

(** When the model throws, [generateStepImage] returns [null], and the
    iteration of the loop that called it throws. *)
Lemma generateStepImage_null stepDescription referenceImageData previous
    stepNumber totalSteps w e :
  gemini env (length (calls w))
    (stepImageCall stepDescription referenceImageData stepNumber totalSteps
       (recentPart (last previous))) = Err e ->
  fst (generateStepImage env stepDescription referenceImageData previous
         stepNumber totalSteps w) = Ok None.
Proof. intros H. rewrite generateStepImage_cases. cbn zeta. by rewrite H. Qed.

Lemma stepIteration_null referenceSketchData tutorialPlan totalSteps i st w e :
  gemini env (length (calls w))
    (stepImageCall (stepDescriptionAt tutorialPlan i) referenceSketchData
       (i + 1) totalSteps (recentPart (last (previousStepsImagesData st))))
  = Err e ->
  fst (stepIteration env referenceSketchData tutorialPlan totalSteps i st w)
  = Err destructureNull.
Proof.
  intros H. unfold stepIteration, bind. cbn zeta.
  rewrite generateStepImage_cases. cbn zeta. by rewrite H.
Qed.

(** A step without an image does not stop the loop: its record has a
    null image URL, the window of recent images is unchanged, and the
    next iteration runs. *)
Lemma stepLoop_no_image referenceSketchData tutorialPlan totalSteps
    remaining i st w w' :
  generateStepImage env (stepDescriptionAt tutorialPlan i) referenceSketchData
    (previousStepsImagesData st) (i + 1) totalSteps w
  = (Ok (Some noImage), w') ->
  stepLoop env referenceSketchData tutorialPlan totalSteps
    (S remaining) i st w
  = stepLoop env referenceSketchData tutorialPlan totalSteps
      remaining (S i)
      {| steps := steps st ++
           [{| step := i + 1;
               description := stepDescriptionAt tutorialPlan i;
               stepImageUrl := None; audio := None |}];
         previousStepsImagesData := previousStepsImagesData st |} w'.
Proof.
  intros Hgen. cbn [stepLoop]. unfold bind at 1.
  unfold stepIteration, bind. cbn zeta. by rewrite Hgen.
Qed.

(** As long as the step-image model answers, the loop runs to its
    end. *)
Lemma stepLoop_returns referenceSketchData tutorialPlan totalSteps :
  (forall n c, model c = lit "gemini-2.5-flash-image-preview" ->
               exists response, gemini env n c = Ok response) ->
  forall remaining i st w,
  exists st' w',
    stepLoop env referenceSketchData tutorialPlan totalSteps remaining i st w
    = (Ok st', w').
Proof.
  intros Hanswers. induction remaining as [|n IH]; intros i st w.
  - by exists st, w.
  - cbn [stepLoop]. unfold bind at 1. unfold stepIteration, bind. cbn zeta.
    rewrite generateStepImage_cases. cbn zeta.
    destruct (Hanswers (length (calls w))
                (stepImageCall (stepDescriptionAt tutorialPlan i)
                   referenceSketchData (i + 1) totalSteps
                   (recentPart (last (previousStepsImagesData st))))
                eq_refl) as [response ->].
    destruct (firstCandidateParts response) as [ps|]; [|apply IH].
    destruct (firstInlineData ps) as [d|]; [|apply IH].
    destruct (saveGeneratedImage _ _ _ _ _) as [[url|e] w1]; apply IH.
Qed.

(** C10: when the model's answer carries an image and saving it throws,
    [generateStepImage] catches the error and returns the pair of nulls;
    the loop records the step with a null image URL, leaves the window of
    recent images as it was, and goes on with the next step. *)
Theorem save_failure_is_not_fatal referenceSketchData tutorialPlan totalSteps
    remaining i st w response ps d e w' :
  gemini env (length (calls w))
    (stepImageCall (stepDescriptionAt tutorialPlan i) referenceSketchData
       (i + 1) totalSteps (recentPart (last (previousStepsImagesData st))))
  = Ok response ->
  firstCandidateParts response = Some ps ->
  firstInlineData ps = Some d ->
  saveGeneratedImage env (data d) (mimeType d)
    (stepFilename (i + 1) (clock env (readings w)))
    (tick (log_call
       (stepImageCall (stepDescriptionAt tutorialPlan i) referenceSketchData
          (i + 1) totalSteps
          (recentPart (last (previousStepsImagesData st)))) w))
  = (Err e, w') ->
  generateStepImage env (stepDescriptionAt tutorialPlan i) referenceSketchData
    (previousStepsImagesData st) (i + 1) totalSteps w
  = (Ok (Some {| imageUrl := None; imageData := None |}), w') /\
  stepLoop env referenceSketchData tutorialPlan totalSteps
    (S remaining) i st w
  = stepLoop env referenceSketchData tutorialPlan totalSteps
      remaining (S i)
      {| steps := steps st ++
           [{| step := i + 1;
               description := stepDescriptionAt tutorialPlan i;
               stepImageUrl := None; audio := None |}];
         previousStepsImagesData := previousStepsImagesData st |} w'.
Proof.
  intros Hanswer Hparts Hdata Hsave.
  assert (generateStepImage env (stepDescriptionAt tutorialPlan i)
            referenceSketchData (previousStepsImagesData st) (i + 1)
            totalSteps w = (Ok (Some noImage), w')) as Hgen.
  { rewrite generateStepImage_cases. cbn zeta.
    by rewrite Hanswer, Hparts, Hdata, Hsave. }
  split; [exact Hgen|]. by apply stepLoop_no_image.
Qed.

End StepImage.

(** ** The step loop *)

Section Loop.

Context (env : Env) (referenceSketchData : option InlineData)
  (tutorialPlan : list jsstring) (totalSteps : nat).

Local Abbreviation loop :=
  (stepLoop env referenceSketchData tutorialPlan totalSteps).
Local Abbreviation iteration :=
  (stepIteration env referenceSketchData tutorialPlan totalSteps).
Local Abbreviation Run :=
  (LoopRun env referenceSketchData tutorialPlan totalSteps).

Lemma lastTwo_length {A} (l : list A) : (length (lastTwo l) <= 2)%nat.
Proof. unfold lastTwo. rewrite length_drop. lia. Qed.

Lemma lastTwo_last {A} (l : list A) : last (lastTwo l) = last l.
Proof.
  unfold lastTwo. destruct l as [|x l] using rev_ind; [done|].
  rewrite length_app. cbn [length].
  rewrite drop_app_le by lia. by rewrite !last_snoc.
Qed.

(** Pushing on the window and shifting keeps the last two images. *)
Lemma pushRecent_lastTwo (images : list InlineData) d :
  pushRecent (lastTwo images) (Some d) = lastTwo (images ++ [d]).
Proof.
  unfold pushRecent, lastTwo. rewrite !length_app, length_drop. cbn [length].
  destruct (decide (length images < 2)%nat) as [Hshort|Hlong].
  - replace (length images - 2)%nat with 0%nat by lia.
    replace (length images + 1 - 2)%nat with 0%nat by lia.
    rewrite !drop_0.
    by replace (2 <? length images - 0 + 1)%nat with false
      by (symmetry; apply Nat.ltb_ge; lia).
  - replace (2 <? length images - (length images - 2) + 1)%nat with true
      by (symmetry; apply Nat.ltb_lt; lia).
    replace (length images + 1 - 2)%nat with (S (length images - 2)) by lia.
    rewrite <- drop_app_le by lia.
    destruct (drop (length images - 2) (images ++ [d])) as [|x l] eqn:Hdrop.
    + apply (f_equal length) in Hdrop.
      rewrite length_drop, length_app in Hdrop. cbn in Hdrop. lia.
    + cbn [tail]. rewrite <- (drop_0 l).
      change (drop 0 l) with (drop 1 (x :: l)).
      by rewrite <- Hdrop, drop_drop, Nat.add_1_r.
Qed.

Lemma imagesOf_snoc produced r :
  imagesOf (produced ++ [r]) = imagesOf produced ++ imagesOf [r].
Proof. unfold imagesOf. apply omap_app. Qed.

(** The state of the loop after [i] iterations: [i] steps are recorded,
    and the window holds the last two images produced. *)
Lemma LoopRun_state w0 i produced st w :
  Run w0 i produced st w ->
  length produced = i /\
  length (steps st) = i /\
  previousStepsImagesData st = lastTwo (imagesOf produced).
Proof.
  induction 1 as [|i produced st w g w' Hrun (IHp & IHs & IHw) Hgen].
  - done.
  - repeat split.
    + rewrite length_app. cbn. lia.
    + cbn. rewrite length_app. cbn. lia.
    + cbn [recordStep previousStepsImagesData]. rewrite IHw, imagesOf_snoc.
      destruct (imageData g) as [d|]; cbn.
      * apply pushRecent_lastTwo.
      * by rewrite app_nil_r.
Qed.

(** The loop, one iteration at the end. *)
Lemma stepLoop_snoc remaining i st w :
  loop (S remaining) i st w
  = bind (loop remaining i st) (iteration (i + remaining)) w.
Proof.
  revert i st w. induction remaining as [|n IH]; intros i st w.
  - cbn [stepLoop]. unfold bind, ret. rewrite Nat.add_0_r.
    by destruct (iteration i st w) as [[st'|e] w'].
  - change (loop (S (S n)) i st w)
      with (bind (iteration i st) (loop (S n) (S i)) w).
    change (loop (S n) i st)
      with (bind (iteration i st) (loop n (S i))).
    unfold bind.
    destruct (iteration i st w) as [[st'|e] w']; [|done].
    rewrite IH. unfold bind.
    by replace (S i + n)%nat with (i + S n)%nat by lia.
Qed.

Lemma stepIteration_ok_inv i st w st' w' :
  iteration i st w = (Ok st', w') ->
  exists g,
    generateStepImage env (stepDescriptionAt tutorialPlan i)
      referenceSketchData (previousStepsImagesData st) (i + 1) totalSteps w
    = (Ok (Some g), w') /\
    st' = recordStep st (i + 1) (stepDescriptionAt tutorialPlan i) g.
Proof.
  unfold stepIteration. cbn zeta. intros H.
  apply bind_ok_inv in H as (r & w1 & Hgen & Hret).
  destruct r as [g|]; [|done]. unfold ret in Hret. simplify_eq.
  by exists g.
Qed.

(** The runs are the prefixes of the loop: a state is reached by a run
    of [i] iterations exactly when the loop, cut after [i] iterations,
    ends in it. *)
Lemma LoopRun_iff_stepLoop w0 i st w :
  (exists produced, Run w0 i produced st w) <->
  loop i 0%nat initialLoopState w0 = (Ok st, w).
Proof.
  split.
  - intros [produced Hrun].
    induction Hrun as [|i produced st w g w' Hrun IH Hgen]; [done|].
    rewrite stepLoop_snoc. rewrite (bind_ok _ _ _ _ _ IH). cbn [Nat.add].
    unfold stepIteration, bind. cbn zeta. by rewrite Hgen.
  - revert st w. induction i as [|i IH]; intros st w Hloop.
    + cbn in Hloop. unfold ret in Hloop. simplify_eq.
      exists []. constructor.
    + rewrite stepLoop_snoc in Hloop.
      apply bind_ok_inv in Hloop as (st1 & w1 & Hprefix & Hlast).
      cbn [Nat.add] in Hlast.
      apply stepIteration_ok_inv in Hlast as (g & Hgen & ->).
      destruct (IH _ _ Hprefix) as [produced Hrun].
      exists (produced ++ [imageData g]). by econstructor.
Qed.

(** The most recent image of a run is the last image of the window. *)
Lemma LoopRun_recent w0 i produced st w :
  Run w0 i produced st w ->
  last (previousStepsImagesData st) = last (imagesOf produced).
Proof.
  intros Hrun. apply LoopRun_state in Hrun as (_ & _ & ->).
  apply lastTwo_last.
Qed.

End Loop.

Section Window.

Context (env : Env) (referenceSketchData : option InlineData)
  (tutorialPlan : list jsstring) (totalSteps : nat).

Local Abbreviation Run :=
  (LoopRun env referenceSketchData tutorialPlan totalSteps).

Lemma recentPart_length recent : (length (recentPart recent) <= 1)%nat.
Proof. destruct recent; cbn; lia. Qed.

(** When the step just before produced an image, that image is the
    latest one. *)
Lemma latestImage_previous produced d :
  previousImage produced = Some d -> latestImage produced = Some d.
Proof.
  unfold previousImage, latestImage.
  destruct produced as [|r produced] using rev_ind; [done|].
  rewrite last_snoc, imagesOf_snoc. cbn. intros ->. cbn.
  apply last_snoc.
Qed.

(** When it produced none, the latest image is that of the steps
    before. *)
Lemma latestImage_skip produced :
  latestImage (produced ++ [None]) = latestImage produced.
Proof.
  unfold latestImage. rewrite imagesOf_snoc. cbn. by rewrite app_nil_r.
Qed.

(** C8: in every state of the step loop the window of recent images
    holds at most two images, namely the last two that the steps so far
    produced, in the order of their production; and the request of the
    next step carries, besides the prompt and the reference sketch, at
    most one image: the last one of the window. *)
Theorem recent_window_bounded w0 i produced st w :
  Run w0 i produced st w ->
  (length (previousStepsImagesData st) <= 2)%nat /\
  previousStepsImagesData st = lastTwo (imagesOf produced) /\
  exists r w' extra,
    generateStepImage env (stepDescriptionAt tutorialPlan i)
      referenceSketchData (previousStepsImagesData st) (i + 1) totalSteps w
    = (Ok r, w') /\
    calls w' = calls w ++
      [stepImageCall (stepDescriptionAt tutorialPlan i) referenceSketchData
         (i + 1) totalSteps extra] /\
    extra = recentPart (last (previousStepsImagesData st)) /\
    (length extra <= 1)%nat.
Proof.
  intros Hrun. pose proof (LoopRun_state _ _ _ _ _ _ _ _ _ Hrun)
    as (_ & _ & Hwindow).
  split; [rewrite Hwindow; apply lastTwo_length|].
  split; [done|].
  destruct (generateStepImage_sends env (stepDescriptionAt tutorialPlan i)
              referenceSketchData (previousStepsImagesData st) (i + 1)
              totalSteps w) as (r & w' & Hgen & Hcalls).
  exists r, w', (recentPart (last (previousStepsImagesData st))).
  repeat split; [done..|apply recentPart_length].
Qed.

(** C2, as the code has it: the request of step [i + 1] carries the
    prompt of the step, the reference sketch and, when some earlier step
    produced an image, the image of the latest step that did, and
    nothing else.  That image is the one of step [i] whenever step [i]
    produced an image; when step [i] produced none it is an older one. *)
Theorem step_request_content w0 i produced st w :
  Run w0 i produced st w ->
  (exists r w',
      generateStepImage env (stepDescriptionAt tutorialPlan i)
        referenceSketchData (previousStepsImagesData st) (i + 1) totalSteps w
      = (Ok r, w') /\
      calls w' = calls w ++
        [stepImageCall (stepDescriptionAt tutorialPlan i) referenceSketchData
           (i + 1) totalSteps (recentPart (latestImage produced))]) /\
  (forall d, previousImage produced = Some d ->
             latestImage produced = Some d) /\
  (forall earlier, produced = earlier ++ [None] ->
                   latestImage produced = latestImage earlier).
Proof.
  intros Hrun. repeat split.
  - destruct (generateStepImage_sends env (stepDescriptionAt tutorialPlan i)
                referenceSketchData (previousStepsImagesData st) (i + 1)
                totalSteps w) as (r & w' & Hgen & Hcalls).
    exists r, w'. split; [done|].
    unfold latestImage.
    by rewrite <- (LoopRun_recent _ _ _ _ _ _ _ _ _ Hrun).
  - apply latestImage_previous.
  - intros earlier ->. apply latestImage_skip.
Qed.

End Window.

(** ** The request handler *)

Section Handler.

Context (env : Env).

Lemma determineOptimalSteps_cases referenceImageData imageDescription w :
  determineOptimalSteps env referenceImageData imageDescription w =
  (Ok match gemini env (length (calls w))
              (stepCountCall referenceImageData imageDescription) with
      | Ok response =>
          match text response with
          | Ok stepsText =>
              match parseInt (trim stepsText) with
              | Some n => if (n <? 8) || (n >? 20) then 12 else n
              | None => 12
              end
          | Err _ => 12
          end
      | Err _ => 12
      end,
   log_call (stepCountCall referenceImageData imageDescription) w).
Proof.
  unfold determineOptimalSteps, try_catch, bind, generateContent, lift, ret,
    stepCountCall.
  cbn zeta.
  destruct (gemini env _ _) as [response|e]; [|done].
  destruct (text response) as [stepsText|e]; [|done].
  destruct (parseInt (trim stepsText)) as [n|]; [|done].
  by destruct ((n <? 8) || (n >? 20)).
Qed.

Lemma determineOptimalSteps_range referenceImageData imageDescription w
    stepCount w' :
  determineOptimalSteps env referenceImageData imageDescription w
  = (Ok stepCount, w') ->
  8 <= stepCount <= 20.
Proof.
  rewrite determineOptimalSteps_cases. intros [= <- _].
  destruct (gemini env _ _) as [response|e]; [|lia].
  destruct (text response) as [stepsText|e]; [|lia].
  destruct (parseInt (trim stepsText)) as [n|]; [|lia].
  destruct ((n <? 8) || (n >? 20)) eqn:Hrange; [lia|].
  apply orb_false_iff in Hrange.
  rewrite Z.gtb_ltb, !Z.ltb_ge in Hrange. lia.
Qed.

Lemma generateTutorialPlan_cases referenceImageData imageDescription
    totalSteps w :
  generateTutorialPlan env referenceImageData imageDescription totalSteps w =
  (Ok match gemini env (length (calls w))
              (planCall referenceImageData imageDescription totalSteps) with
      | Ok response =>
          match text response with
          | Ok planText => parsePlan planText totalSteps
          | Err _ => genericSteps totalSteps
          end
      | Err _ => genericSteps totalSteps
      end,
   log_call (planCall referenceImageData imageDescription totalSteps) w).
Proof.
  unfold generateTutorialPlan, try_catch, bind, generateContent, lift, ret,
    planCall.
  cbn zeta.
  destruct (gemini env _ _) as [response|e]; [|done].
  by destruct (text response) as [planText|e].
Qed.

Lemma genericSteps_nonempty totalSteps :
  Forall (fun s => s <> []) (genericSteps totalSteps).
Proof.
  unfold genericSteps. apply Forall_forall. intros s Hs.
  apply list_elem_of_In, in_map_iff in Hs as (i & <- & _). done.
Qed.

(** A plan has the asked number of entries, none of them empty, however
    it was obtained. *)
Lemma generateTutorialPlan_shape referenceImageData imageDescription
    totalSteps w plan w' :
  generateTutorialPlan env referenceImageData imageDescription totalSteps w
  = (Ok plan, w') ->
  length plan = totalSteps /\ Forall (fun s => s <> []) plan.
Proof.
  rewrite generateTutorialPlan_cases. intros [= <- _].
  pose proof (genericSteps_spec totalSteps) as [Hlen _].
  pose proof (genericSteps_nonempty totalSteps) as Hne.
  destruct (gemini env _ _) as [response|e]; [|done].
  destruct (text response) as [planText|e]; [|done].
  pose proof (parsePlan_spec planText totalSteps) as (? & ? & _). done.
Qed.

(** On such a plan the fallback of [tutorialPlan[i] || ...] is never
    taken. *)
Lemma stepDescriptionAt_plan (plan : list jsstring) i s :
  Forall (fun s => s <> []) plan -> plan !! i = Some s ->
  stepDescriptionAt plan i = s.
Proof.
  intros Hne Hi. unfold stepDescriptionAt. rewrite Hi.
  pose proof (Forall_lookup_1 _ _ _ _ Hne Hi). by destruct s.
Qed.

Lemma stepDescriptions_plan (plan : list jsstring) :
  Forall (fun s => s <> []) plan ->
  stepDescriptionAt plan <$> seq 0 (length plan) = plan.
Proof.
  intros Hne. apply list_eq. intros i.
  rewrite list_lookup_fmap.
  destruct (plan !! i) as [s|] eqn:Hi.
  - rewrite lookup_seq_lt by (by eapply lookup_lt_Some). cbn.
    f_equal. by apply stepDescriptionAt_plan.
  - rewrite lookup_seq_ge; [done|]. by apply lookup_ge_None.
Qed.

(** The records that the loop adds: one for each iteration, numbered
    from [i + 1] on, with the descriptions of the plan. *)
Lemma stepLoop_steps referenceSketchData tutorialPlan totalSteps
    remaining i st w st' w' :
  stepLoop env referenceSketchData tutorialPlan totalSteps remaining i st w
  = (Ok st', w') ->
  step <$> steps st' = (step <$> steps st) ++ seq (i + 1) remaining /\
  description <$> steps st'
  = (description <$> steps st)
    ++ (stepDescriptionAt tutorialPlan <$> seq i remaining).
Proof.
  revert i st w. induction remaining as [|n IH]; intros i st w Hloop.
  - cbn in Hloop. unfold ret in Hloop. simplify_eq. cbn.
    by rewrite !app_nil_r.
  - cbn [stepLoop] in Hloop.
    apply bind_ok_inv in Hloop as (st1 & w1 & Hiter & Hrest).
    apply stepIteration_ok_inv in Hiter as (g & _ & ->).
    apply IH in Hrest as [Hstep Hdescr].
    rewrite Hstep, Hdescr. cbn [recordStep steps seq fmap list_fmap].
    rewrite !fmap_app. cbn. rewrite <- !app_assoc. cbn.
    by replace (S i + 1)%nat with (S (i + 1)) by lia.
Qed.

Lemma generateAudioNarration_placeholder text w :
  generateAudioNarration text w = (Ok placeholder, w).
Proof. done. Qed.

Lemma narrateSteps_narrated records w :
  narrateSteps records w = (Ok (narrated <$> records), w).
Proof.
  induction records as [|s records IH]; [done|].
  cbn [narrateSteps]. unfold bind.
  rewrite generateAudioNarration_placeholder, IH. done.
Qed.

(** What a response with status 200 tells about the request: every stage
    of the pipeline returned, and the body is assembled from the results
    of the stages. *)
Lemma generateTutorial_200_inv req w resp w' :
  generateTutorial env req w = (Ok resp, w') ->
  status resp = 200%nat ->
  exists filePath level sketch w1 imageDescription w2 stepCount w3 plan w4 st,
    file req = Some filePath /\
    difficulty req = Some level /\
    generatePencilSketchFromImage env filePath level w = (Ok sketch, w1) /\
    analyzeImage env filePath w1 = (Ok imageDescription, w2) /\
    determineOptimalSteps env (imageData sketch) imageDescription w2
    = (Ok stepCount, w3) /\
    generateTutorialPlan env (imageData sketch) imageDescription
      (Z.to_nat stepCount) w3 = (Ok plan, w4) /\
    stepLoop env (imageData sketch) plan (Z.to_nat stepCount)
      (Z.to_nat stepCount) 0 initialLoopState w4 = (Ok st, w') /\
    body resp =
      TutorialBody
        {| sketchImageUrl := imageUrl sketch;
           sketchDescription := imageDescription;
           sketchAudio := Some placeholder |}
        (narrated <$> steps st).
Proof.
  unfold generateTutorial, try_catch. intros Hrun Hstatus.
  destruct (file req) as [filePath|] eqn:Hfile; [|other_status Hrun Hstatus].
  destruct (difficulty req) as [level|] eqn:Hlevel;
    [|other_status Hrun Hstatus].
  destruct (truthy level); [|other_status Hrun Hstatus].
  unfold bind at 1 in Hrun.
  destruct (generatePencilSketchFromImage env filePath level w)
    as [[sketch|e] w1] eqn:Hsketch; [|other_status Hrun Hstatus].
  destruct (falsy (imageUrl sketch)); [other_status Hrun Hstatus|].
  unfold bind at 1 in Hrun.
  destruct (analyzeImage env filePath w1)
    as [[imageDescription|e] w2] eqn:Hanalyze; [|other_status Hrun Hstatus].
  unfold bind at 1 in Hrun.
  destruct (determineOptimalSteps env (imageData sketch) imageDescription w2)
    as [[stepCount|e] w3] eqn:Hcount; [|other_status Hrun Hstatus].
  cbn zeta in Hrun. unfold bind at 1 in Hrun.
  destruct (generateTutorialPlan env (imageData sketch) imageDescription
              (Z.to_nat stepCount) w3)
    as [[plan|e] w4] eqn:Hplan; [|other_status Hrun Hstatus].
  unfold bind at 1 in Hrun.
  destruct (stepLoop env (imageData sketch) plan (Z.to_nat stepCount)
              (Z.to_nat stepCount) 0 initialLoopState w4)
    as [[st|e] w5] eqn:Hloop; [|other_status Hrun Hstatus].
  unfold bind in Hrun.
  rewrite generateAudioNarration_placeholder, narrateSteps_narrated in Hrun.
  unfold ret in Hrun. injection Hrun as <- <-.
  by exists filePath, level, sketch, w1, imageDescription, w2, stepCount, w3,
    plan, w4, st.
Qed.

End Handler.

Section Responses.

Context (env : Env).

(** C6: a response with status 200 comes from a run in which the
    sketch, the description, the step count and the plan were obtained in
    this order; its [steps] array has as many records as
    [determineOptimalSteps] returned in that run; their [step] fields are
    1, 2, ... in this order, and their descriptions are, entry by entry,
    the plan that [generateTutorialPlan] returned. *)
Theorem steps_follow_plan req w resp w' :
  generateTutorial env req w = (Ok resp, w') ->
  status resp = 200%nat ->
  exists filePath level sketch w1 imageDescription w2 stepCount w3 plan w4
         sketchInfo records,
    file req = Some filePath /\
    difficulty req = Some level /\
    generatePencilSketchFromImage env filePath level w = (Ok sketch, w1) /\
    analyzeImage env filePath w1 = (Ok imageDescription, w2) /\
    determineOptimalSteps env (imageData sketch) imageDescription w2
    = (Ok stepCount, w3) /\
    generateTutorialPlan env (imageData sketch) imageDescription
      (Z.to_nat stepCount) w3 = (Ok plan, w4) /\
    body resp = TutorialBody sketchInfo records /\
    Z.of_nat (length records) = stepCount /\
    step <$> records = seq 1 (length records) /\
    description <$> records = plan.
Proof.
  intros Hrun Hstatus.
  destruct (generateTutorial_200_inv env req w resp w' Hrun Hstatus)
    as (filePath & level & sketch & w1 & imageDescription & w2 & stepCount
        & w3 & plan & w4 & st & Hfile & Hlevel & Hsketch & Hanalyze & Hcount
        & Hplan & Hloop & Hbody).
  pose proof (determineOptimalSteps_range _ _ _ _ _ _ Hcount) as Hrange.
  pose proof (generateTutorialPlan_shape _ _ _ _ _ _ _ Hplan) as [Hlen Hne].
  apply stepLoop_steps in Hloop as [Hstep Hdescr]. cbn in Hstep, Hdescr.
  assert (length (steps st) = Z.to_nat stepCount) as Hsteps.
  { apply (f_equal length) in Hstep.
    by rewrite length_fmap, length_seq in Hstep. }
  eexists filePath, level, sketch, w1, imageDescription, w2, stepCount, w3,
    plan, w4, _, (narrated <$> steps st).
  do 6 (split; [eassumption|]). split; [exact Hbody|].
  rewrite length_fmap, Hsteps. split; [lia|].
  rewrite <- !list_fmap_compose.
  change (step ∘ narrated) with step.
  change (description ∘ narrated) with description.
  rewrite Hstep, Hdescr. split; [done|].
  rewrite <- Hlen at 1. by apply stepDescriptions_plan.
Qed.

(** C9: in a response with status 200 the [audio] field of the sketch
    and the [audio] field of every step are the placeholder file name;
    none of them is null. *)
Theorem narration_is_placeholder req w resp w' :
  generateTutorial env req w = (Ok resp, w') ->
  status resp = 200%nat ->
  exists sketch records,
    body resp = TutorialBody sketch records /\
    sketchAudio sketch = Some (lit "audio_placeholder.mp3") /\
    Forall (fun s => audio s = Some (lit "audio_placeholder.mp3")) records.
Proof.
  intros Hrun Hstatus.
  destruct (generateTutorial_200_inv env req w resp w' Hrun Hstatus)
    as (filePath & level & sketch & w1 & imageDescription & w2 & stepCount
        & w3 & plan & w4 & st & _ & _ & _ & _ & _ & _ & _ & Hbody).
  eexists _, _. split; [exact Hbody|]. split; [done|].
  apply Forall_fmap, Forall_true. done.
Qed.

(** C5: when the call for the plan throws, [generateTutorialPlan]
    returns the generic plan: [totalSteps] entries, the [i]-th being
    "Work on part [i] of your drawing.".  Nothing else failing, that is
    the step-image model answering its requests, the response has
    status 200 and the descriptions of its steps are that plan. *)
Theorem plan_failure_is_not_fatal req w filePath level sketch url w1
    imageDescription w2 stepCount w3 e :
  file req = Some filePath ->
  difficulty req = Some level ->
  truthy level = true ->
  generatePencilSketchFromImage env filePath level w = (Ok sketch, w1) ->
  imageUrl sketch = Some url -> truthy url = true ->
  analyzeImage env filePath w1 = (Ok imageDescription, w2) ->
  determineOptimalSteps env (imageData sketch) imageDescription w2
  = (Ok stepCount, w3) ->
  gemini env (length (calls w3))
    (planCall (imageData sketch) imageDescription (Z.to_nat stepCount))
  = Err e ->
  (forall n c, model c = lit "gemini-2.5-flash-image-preview" ->
               exists response, gemini env n c = Ok response) ->
  let totalSteps := Z.to_nat stepCount in
  fst (generateTutorialPlan env (imageData sketch) imageDescription
         totalSteps w3) = Ok (genericSteps totalSteps) /\
  length (genericSteps totalSteps) = totalSteps /\
  (forall i, (1 <= i <= totalSteps)%nat ->
     genericSteps totalSteps !! (i - 1)%nat
     = Some (lit "Work on part " ++ decimal (N.of_nat i)
             ++ lit " of your drawing.")) /\
  exists sketchInfo records,
    fst (generateTutorial env req w)
    = Ok {| status := 200; body := TutorialBody sketchInfo records |} /\
    description <$> records = genericSteps totalSteps.
Proof.
  intros Hfile Hlevel Htruthy Hsketch Hurl Hurl' Hanalyze Hcount Hplan
    Hanswers totalSteps.
  pose proof (generateTutorialPlan_cases env (imageData sketch)
                imageDescription (Z.to_nat stepCount) w3) as Hgeneric.
  rewrite Hplan in Hgeneric. fold totalSteps in Hgeneric.
  pose proof (genericSteps_spec totalSteps) as [Hlen Hentries].
  split; [by rewrite Hgeneric|]. split; [exact Hlen|]. split.
  { intros i Hi. rewrite Hentries by lia.
    by replace (i - 1 + 1)%nat with i by lia. }
  destruct (stepLoop_returns env (imageData sketch)
              (genericSteps totalSteps) totalSteps
              Hanswers totalSteps 0%nat initialLoopState
              (log_call (planCall (imageData sketch) imageDescription
                           totalSteps) w3))
    as (st & w5 & Hloop).
  exists {| sketchImageUrl := imageUrl sketch;
            sketchDescription := imageDescription;
            sketchAudio := Some placeholder |}, (narrated <$> steps st).
  split.
  - unfold generateTutorial, try_catch. rewrite Hfile, Hlevel, Htruthy.
    unfold bind at 1. rewrite Hsketch, Hurl. cbn [falsy]. rewrite Hurl'.
    cbn [negb]. unfold bind at 1. rewrite Hanalyze.
    unfold bind at 1. rewrite Hcount. cbn zeta. fold totalSteps.
    unfold bind at 1. rewrite Hgeneric.
    unfold bind at 1. rewrite Hloop.
    unfold bind.
    by rewrite generateAudioNarration_placeholder, narrateSteps_narrated.
  - apply stepLoop_steps in Hloop as [_ Hdescr]. cbn in Hdescr.
    rewrite <- list_fmap_compose.
    change (description ∘ narrated) with description. rewrite Hdescr.
    pose proof (stepDescriptions_plan _
                  (genericSteps_nonempty totalSteps)) as Hall.
    by rewrite Hlen in Hall.
Qed.

End Responses.

(** ** Concrete runs *)

Import Scenario.

(** The run of two iterations in which step 1 produces an image and
    step 2 none. *)
Lemma stepTwoEmpty_run :
  LoopRun stepTwoEmpty sketchData plan 8 (planned stepTwoEmpty)
    2 [Some (stepImage 1); None]
    (stateAfter stepTwoEmpty 2) (worldAfter stepTwoEmpty 2).
Proof.
  pose (g1 := {| imageUrl := Some (lit "/generated/step_1_1700000000001.jpg");
                 imageData := Some (stepImage 1) |}).
  change [Some (stepImage 1); None]
    with (([] ++ [imageData g1]) ++ [imageData noImage]).
  replace (stateAfter stepTwoEmpty 2)
    with (recordStep (stateAfter stepTwoEmpty 1) (1 + 1)
            (stepDescriptionAt plan 1) noImage)
    by (vm_compute; reflexivity).
  apply (run_iteration _ _ _ _ _ 1 _ _ (worldAfter stepTwoEmpty 1));
    [|vm_compute; reflexivity].
  replace (stateAfter stepTwoEmpty 1)
    with (recordStep initialLoopState (0 + 1) (stepDescriptionAt plan 0) g1)
    by (vm_compute; reflexivity).
  apply (run_iteration _ _ _ _ _ 0 _ _ (planned stepTwoEmpty));
    [|vm_compute; reflexivity].
  apply run_start.
Qed.

(** C1: the model is unavailable for the image of step 3.  The call
    throws, [generateStepImage] returns [null], which is neither of the
    two pairs, the handler fails to take the pair apart, and the request
    ends with status 500 although the images of steps 1 and 2 were
    generated. *)
Theorem step_failure_aborts_request :
  gemini stepFails (length (calls (worldAfter stepFails 2)))
    (stepImageCall (stepDescriptionAt plan 2) sketchData 3 8
       (recentPart (last (previousStepsImagesData (stateAfter stepFails 2)))))
  = Err unavailable /\
  fst (generateStepImage stepFails (stepDescriptionAt plan 2) sketchData
         (previousStepsImagesData (stateAfter stepFails 2)) 3 8
         (worldAfter stepFails 2)) = Ok None /\
  fst (generateTutorial stepFails request world)
  = Ok {| status := 500;
          body := ErrorBody (lit "Failed to generate tutorial")
                    (Some (message destructureNull)) |}.
Proof. repeat split; vm_compute; reflexivity. Qed.

(** C2 fails as stated: step 2 produced no image, and the request of
    step 3 carries the image of step 1. *)
Lemma older_image_is_sent :
  ~ OnlyPreviousStep stepTwoEmpty sketchData plan 8 (planned stepTwoEmpty).
Proof.
  intros Hclaim.
  destruct (generateStepImage_sends stepTwoEmpty (stepDescriptionAt plan 2)
              sketchData (previousStepsImagesData (stateAfter stepTwoEmpty 2))
              (2 + 1) 8 (worldAfter stepTwoEmpty 2))
    as (r & w' & Hgen & Hcalls).
  specialize (Hclaim 2%nat _ _ _ _ _ stepTwoEmpty_run (le_S _ _ (le_n 1)) Hgen).
  rewrite Hcalls in Hclaim. apply app_inv_head in Hclaim.
  vm_compute in Hclaim. discriminate Hclaim.
Qed.

Lemma step_request_content_witness :
  exists r w',
    generateStepImage stepTwoEmpty (stepDescriptionAt plan 2) sketchData
      (previousStepsImagesData (stateAfter stepTwoEmpty 2)) (2 + 1) 8
      (worldAfter stepTwoEmpty 2) = (Ok r, w') /\
    calls w' = calls (worldAfter stepTwoEmpty 2) ++
      [stepImageCall (stepDescriptionAt plan 2) sketchData (2 + 1) 8
         (recentPart (latestImage [Some (stepImage 1); None]))].
Proof.
  exact (proj1 (step_request_content stepTwoEmpty sketchData plan 8
                  (planned stepTwoEmpty) 2 [Some (stepImage 1); None]
                  (stateAfter stepTwoEmpty 2) (worldAfter stepTwoEmpty 2)
                  stepTwoEmpty_run)).
Defined.

Lemma recent_window_bounded_witness :
  (length (previousStepsImagesData (stateAfter stepTwoEmpty 2)) <= 2)%nat /\
  previousStepsImagesData (stateAfter stepTwoEmpty 2)
  = lastTwo (imagesOf [Some (stepImage 1); None]).
Proof.
  pose proof (recent_window_bounded stepTwoEmpty sketchData plan 8
                (planned stepTwoEmpty) 2 [Some (stepImage 1); None]
                (stateAfter stepTwoEmpty 2) (worldAfter stepTwoEmpty 2)
                stepTwoEmpty_run) as (Hlength & Hwindow & _).
  exact (conj Hlength Hwindow).
Defined.

(** A numbered line without text gives no entry: the plan stays free
    of empty strings. *)
Example bare_numeral_gives_no_entry :
  fst (generateTutorialPlan (constant (Ok (textResponse bareNumeral)))
         sketchData catDescription 8 world)
  = Ok (lit "Draw a circle." :: replicate 7 filler).
Proof. vm_compute. reflexivity. Qed.


(** A second fault after the plan: the model is unavailable for the
    plan and for the image of step 1.  The plan is the generic one, and
    the request ends with status 500 through the [null] of
    [generateStepImage]. *)
Theorem plan_and_step_failure_aborts_request :
  fst (generateTutorialPlan planAndStepFail sketchData catDescription 8
         (counted planAndStepFail)) = Ok (genericSteps 8) /\
  fst (generateTutorial planAndStepFail request world)
  = Ok {| status := 500;
          body := ErrorBody (lit "Failed to generate tutorial")
                    (Some (message destructureNull)) |}.
Proof. split; vm_compute; reflexivity. Qed.

(** When only the plan fails, the response has status 200 and the
    generic descriptions. *)
Example plan_failure_alone :
  exists sketch records,
    fst (generateTutorial planFails request world)
    = Ok {| status := 200; body := TutorialBody sketch records |} /\
    description <$> records = genericSteps 8.
Proof. eexists _, _. split; vm_compute; reflexivity. Qed.

Lemma fine_run :
  generateTutorial fine request world = (Ok fineResponse, fineWorld).
Proof. vm_compute. reflexivity. Qed.

Lemma steps_follow_plan_witness :
  exists sketch records,
    body fineResponse = TutorialBody sketch records /\
    step <$> records = seq 1 (length records).
Proof.
  destruct (steps_follow_plan fine request world fineResponse fineWorld
              fine_run eq_refl)
    as (_ & _ & _ & _ & _ & _ & _ & _ & _ & _ & sketch & records
        & _ & _ & _ & _ & _ & _ & Hbody & _ & Hstep & _).
  exists sketch, records. exact (conj Hbody Hstep).
Defined.

Lemma narration_is_placeholder_witness :
  exists sketch records,
    body fineResponse = TutorialBody sketch records /\
    sketchAudio sketch = Some (lit "audio_placeholder.mp3") /\
    Forall (fun s => audio s = Some (lit "audio_placeholder.mp3")) records.
Proof.
  exact (narration_is_placeholder fine request world fineResponse fineWorld
           fine_run eq_refl).
Defined.

(** C7 fails as stated: the directory of generated images is missing,
    and the store of the server throws instead of creating it. *)
Lemma store_needs_directory :
  saveGeneratedImage fine (lit "c3RlcA") (lit "image/png")
    (lit "step_1_1700000000001") worldWithoutGenerated
  = (Err (enoent (lit "generated", lit "step_1_1700000000001.png")),
     worldWithoutGenerated).
Proof. vm_compute. reflexivity. Qed.

Lemma save_failure_is_not_fatal_witness :
  generateStepImage (constant (Ok (imageResponse (stepImage 1))))
    (stepDescriptionAt plan 0) sketchData [] (0 + 1) 8 worldWithoutGenerated
  = (Ok (Some {| imageUrl := None; imageData := None |}),
     tick (log_call
             (stepImageCall (stepDescriptionAt plan 0) sketchData (0 + 1) 8 [])
             worldWithoutGenerated)).
Proof.
  refine (proj1 (save_failure_is_not_fatal
                   (constant (Ok (imageResponse (stepImage 1))))
                   sketchData plan 8 7 0 initialLoopState
                   worldWithoutGenerated (imageResponse (stepImage 1))
                   [{| inlineData := Some (stepImage 1); partText := None |}]
                   (stepImage 1)
                   (enoent (lit "generated",
                            lit "step_1_1700000000000.jpg"))
                   _ _ _ _ _));
    vm_compute; reflexivity.
Defined.

(** ** Examples *)

Example parseInt_number : parseInt (lit "12") = Some 12.
Proof. reflexivity. Qed.

Example parseInt_prefix : parseInt (lit "12 steps") = Some 12.
Proof. reflexivity. Qed.

Example parseInt_words : parseInt (lit "about 12") = None.
Proof. reflexivity. Qed.

Example parseInt_hexadecimal : parseInt (lit "0x10") = Some 16.
Proof. reflexivity. Qed.

Example parseInt_negative : parseInt (lit "-7.5") = Some (-7).
Proof. reflexivity. Qed.

Example trim_line : trim (lit "  1. Draw  ") = lit "1. Draw".
Proof. reflexivity. Qed.

Example split_lines_text :
  split_lines (lit "a" ++ newline ++ lit "b" ++ newline)
  = [lit "a"; lit "b"; []].
Proof. reflexivity. Qed.

Example planText_plan :
  parsePlan planText 8
  = [lit "Draw a circle for the head.";
     lit "Add two small circles for the eyes.";
     lit "Draw a curved line for the smile."] ++ replicate 5 filler.
Proof. vm_compute. reflexivity. Qed.

Example stepCount_parsed :
  fst (determineOptimalSteps (constant (Ok (textResponse (lit " 16 "))))
         sketchData catDescription world) = Ok 16.
Proof. reflexivity. Qed.

Example stepCount_out_of_range :
  fst (determineOptimalSteps (constant (Ok (textResponse (lit "25"))))
         sketchData catDescription world) = Ok 12.
Proof. reflexivity. Qed.

Example stepCount_not_a_number :
  fst (determineOptimalSteps
         (constant (Ok (textResponse (lit "Twelve steps."))))
         sketchData catDescription world) = Ok 12.
Proof. reflexivity. Qed.

Example stepCount_call_fails :
  fst (determineOptimalSteps (constant (Err unavailable))
         sketchData catDescription world) = Ok 12.
Proof. reflexivity. Qed.

Example example_store_creates_directory :
  fst (SavingExample.saveGeneratedImage fine (lit "c3RlcA") (lit "image/gif")
         (lit "sketch_1700000000000") worldWithoutGenerated)
  = Ok (lit "generated_images/sketch_1700000000000.gif").
Proof. vm_compute. reflexivity. Qed.

Example stepCount_text_fails :
  fst (determineOptimalSteps
         (constant (Ok {| candidates := None; text := Err unavailable |}))
         sketchData catDescription world) = Ok 12.
Proof. reflexivity. Qed.

Example server_store_with_directory :
  exists w',
    saveGeneratedImage fine (lit "c3RlcA") (lit "image/png")
      (lit "step_1_1700000000001") world
    = (Ok (lit "/generated/step_1_1700000000001.png"), w') /\
    files w' !! (lit "generated", lit "step_1_1700000000001.png")
    = Some (lit "c3RlcA").
Proof. eexists. split; vm_compute; reflexivity. Qed.

Example startup_creates_directories :
  dirs (snd (ensureDirectories
               {| dirs := ∅; files := ∅; calls := []; readings := 0 |}))
  = {[ lit "uploads"; lit "generated" ]}.
Proof. vm_compute. reflexivity. Qed.

(** * Further properties *)

(** ** The artifact store, continued *)

Section StoreMore.

Context (env : Env).

Lemma extensionFor_known mimeType :
  extensionFor mimeType = lit ".png" \/ extensionFor mimeType = lit ".jpg"
  \/ extensionFor mimeType = lit ".gif".
Proof. unfold extensionFor. repeat case_decide; auto. Qed.

Lemma extensionFor_length mimeType : length (extensionFor mimeType) = 4%nat.
Proof. by destruct (extensionFor_known mimeType) as [->|[->| ->]]. Qed.

(** Two file names with extensions agree only when the names and the
    extensions agree. *)
Lemma named_file_inj filename1 mimeType1 filename2 mimeType2 :
  filename1 ++ extensionFor mimeType1 = filename2 ++ extensionFor mimeType2 ->
  filename1 = filename2 /\ extensionFor mimeType1 = extensionFor mimeType2.
Proof.
  intros H. apply app_inj_2 in H; [done|].
  by rewrite !extensionFor_length.
Qed.

(** X1: for a file name as the server builds it: when the server's
    store returns, the URL it returns is the path
    of the written file below the served directory, with a leading
    slash; the extension is [.jpg] for the two JPEG types, [.gif] for
    GIF and [.png] for every other type; the file holds the decoded
    data, and no other file, no directory and no request is touched. *)
Theorem saved_image_is_served imageData mimeType filename w url w' :
  plainName filename = true ->
  saveGeneratedImage env imageData mimeType filename w = (Ok url, w') ->
  let extension :=
    if bool_decide (mimeType = lit "image/jpeg" \/ mimeType = lit "image/jpg")
    then lit ".jpg"
    else if bool_decide (mimeType = lit "image/gif") then lit ".gif"
    else lit ".png" in
  let saved : path := (lit "generated", filename ++ extension) in
  url = lit "/" ++ path_text saved /\
  files w' !! saved = Some (base64_decode env imageData) /\
  (forall p : path, p <> saved -> files w' !! p = files w !! p) /\
  dirs w' = dirs w /\ calls w' = calls w /\ readings w' = readings w.
Proof.
  intros _. rewrite saveGeneratedImage_cases. cbn zeta.
  case_bool_decide as Hdir; [|done]. intros [= <- <-].
  assert (extensionFor mimeType
          = if bool_decide (mimeType = lit "image/jpeg"
                            \/ mimeType = lit "image/jpg")
            then lit ".jpg"
            else if bool_decide (mimeType = lit "image/gif") then lit ".gif"
            else lit ".png") as <-.
  { unfold extensionFor.
    destruct (decide (mimeType = lit "image/png")) as [->|Hpng]; [done|].
    destruct (decide (mimeType = lit "image/jpeg")) as [->|Hjpeg]; [done|].
    destruct (decide (mimeType = lit "image/jpg")) as [->|Hjpg]; [done|].
    rewrite (bool_decide_eq_false_2 (_ \/ _)) by (by intros [?|?]).
    by destruct (decide (mimeType = lit "image/gif")) as [->|Hgif];
      [|rewrite bool_decide_eq_false_2]. }
  repeat split.
  - cbn. apply lookup_insert_eq.
  - intros p Hp. cbn. by apply lookup_insert_ne.
Qed.

(** X2: two images stored under different names, both as the server
    builds them, do not disturb each other, whatever their types: both stores return, with different
    URLs, and afterwards each file holds its own data. *)
Theorem distinct_names_distinct_files data1 mimeType1 filename1
    data2 mimeType2 filename2 w :
  plainName filename1 = true ->
  plainName filename2 = true ->
  filename1 <> filename2 ->
  lit "generated" ∈ dirs w ->
  exists url1 w1 url2 w2,
    saveGeneratedImage env data1 mimeType1 filename1 w = (Ok url1, w1) /\
    saveGeneratedImage env data2 mimeType2 filename2 w1 = (Ok url2, w2) /\
    url1 <> url2 /\
    files w2 !! (lit "generated", filename1 ++ extensionFor mimeType1)
    = Some (base64_decode env data1) /\
    files w2 !! (lit "generated", filename2 ++ extensionFor mimeType2)
    = Some (base64_decode env data2).
Proof.
  intros _ _ Hne Hdir.
  set (file1 := (lit "generated", filename1 ++ extensionFor mimeType1) : path).
  set (file2 := (lit "generated", filename2 ++ extensionFor mimeType2) : path).
  set (w1 := put_file file1 (base64_decode env data1) w).
  exists (lit "/generated/" ++ filename1 ++ extensionFor mimeType1), w1,
    (lit "/generated/" ++ filename2 ++ extensionFor mimeType2),
    (put_file file2 (base64_decode env data2) w1).
  rewrite !saveGeneratedImage_cases. cbn zeta.
  rewrite !bool_decide_eq_true_2 by done.
  split; [done|]. split; [done|].
  assert (file1 <> file2) as Hfiles.
  { intros [= H]. by apply named_file_inj in H as [? _]. }
  repeat split.
  - intros H. apply app_inv_head in H. apply Hfiles. unfold file1, file2.
    by rewrite H.
  - cbn. rewrite lookup_insert_ne by done. apply lookup_insert_eq.
  - cbn. apply lookup_insert_eq.
Qed.

(** X3: a second image stored under the same name, one as the server
    builds it, and with the same extension takes the place of the first: the URLs are the same and
    the file holds the data of the second store. *)
Theorem same_name_overwrites data1 mimeType1 data2 mimeType2 filename w :
  plainName filename = true ->
  extensionFor mimeType1 = extensionFor mimeType2 ->
  lit "generated" ∈ dirs w ->
  exists url w1 w2,
    saveGeneratedImage env data1 mimeType1 filename w = (Ok url, w1) /\
    saveGeneratedImage env data2 mimeType2 filename w1 = (Ok url, w2) /\
    files w2 !! (lit "generated", filename ++ extensionFor mimeType1)
    = Some (base64_decode env data2) /\
    dom (files w2) = dom (files w1).
Proof.
  intros _ Hext Hdir.
  set (file := (lit "generated", filename ++ extensionFor mimeType1) : path).
  set (w1 := put_file file (base64_decode env data1) w).
  exists (lit "/generated/" ++ filename ++ extensionFor mimeType1), w1,
    (put_file file (base64_decode env data2) w1).
  rewrite !saveGeneratedImage_cases. cbn zeta.
  rewrite !bool_decide_eq_true_2 by done. rewrite <- Hext.
  split; [done|]. split; [done|]. split.
  - cbn. apply lookup_insert_eq.
  - cbn. rewrite !dom_insert_L.
    apply (anti_symm (⊆)).
    + apply union_subseteq. split; [apply union_subseteq_l|done].
    + apply union_subseteq_r.
Qed.

(** X4: the start-up code never throws; it adds the directories
    [uploads] and [generated] when they are missing and changes nothing
    else; running it again changes nothing at all. *)
Theorem startup_directories w :
  exists w',
    ensureDirectories w = (Ok tt, w') /\
    dirs w' = {[ lit "uploads"; lit "generated" ]} ∪ dirs w /\
    files w' = files w /\ calls w' = calls w /\ readings w' = readings w /\
    ensureDirectories w' = (Ok tt, w').
Proof.
  assert (forall dir w0, exists w1,
             ensureDirectory dir w0 = (Ok tt, w1) /\
             dirs w1 = {[ dir ]} ∪ dirs w0 /\ files w1 = files w0 /\
             calls w1 = calls w0 /\ readings w1 = readings w0 /\
             (dir ∈ dirs w0 -> w1 = w0)) as Hone.
  { intros dir w0.
    unfold ensureDirectory, bind, existsSync, mkdirSync, ret.
    case_bool_decide as Hdir; cbn.
    - exists w0. repeat split; try done.
      symmetry. apply subseteq_union_1_L. by apply singleton_subseteq_l.
    - rewrite bool_decide_eq_false_2 by done.
      exists (add_dir dir w0). by repeat split. }
  unfold ensureDirectories, bind.
  destruct (Hone (lit "uploads") w) as (w1 & H1 & Hd1 & Hf1 & Hc1 & Hr1 & _).
  destruct (Hone (lit "generated") w1)
    as (w2 & H2 & Hd2 & Hf2 & Hc2 & Hr2 & _).
  rewrite H1, H2. exists w2.
  assert (dirs w2 = {[ lit "uploads"; lit "generated" ]} ∪ dirs w) as Hdirs.
  { rewrite Hd2, Hd1. rewrite (assoc_L (∪)).
    by rewrite (comm_L (∪) {[ lit "generated" ]}). }
  split; [done|]. split; [done|].
  split; [congruence|]. split; [congruence|]. split; [congruence|].
  destruct (Hone (lit "uploads") w2) as (w3 & H3 & _ & _ & _ & _ & Hsame3).
  rewrite H3, Hsame3
    by (rewrite Hdirs; apply elem_of_union_l, elem_of_union_l;
        by apply elem_of_singleton_2).
  destruct (Hone (lit "generated") w2) as (w4 & H4 & _ & _ & _ & _ & Hsame4).
  rewrite H4, Hsame4
    by (rewrite Hdirs; apply elem_of_union_l, elem_of_union_r;
        by apply elem_of_singleton_2).
  done.
Qed.

End StoreMore.

(** ** What the server writes *)

Section Respected.

Context (env : Env) (R : World -> World -> Prop)
  (R_refl : forall w, R w w)
  (R_trans : forall w1 w2 w3, R w1 w2 -> R w2 w3 -> R w1 w3)
  (R_log : forall c w, R w (log_call c w))
  (R_tick : forall w, R w (tick w))
  (R_put : forall file b w, R w (put_file (lit "generated", file) b w)).

Lemma Respects_ret {A} (a : A) : Respects R (ret a).
Proof. intros w. apply R_refl. Qed.

Lemma Respects_throw {A} e : Respects R (@throw A e).
Proof. intros w. apply R_refl. Qed.

Lemma Respects_lift {A} (r : result A) : Respects R (lift r).
Proof. intros w. apply R_refl. Qed.

Lemma Respects_bind {A B} (m : M A) (f : A -> M B) :
  Respects R m -> (forall a, Respects R (f a)) -> Respects R (bind m f).
Proof.
  intros Hm Hf w. unfold bind. specialize (Hm w).
  destruct (m w) as [[a|e] w1]; [|done].
  eapply R_trans; [exact Hm|apply Hf].
Qed.

Lemma Respects_try_catch {A} (m : M A) (h : JsError -> M A) :
  Respects R m -> (forall e, Respects R (h e)) -> Respects R (try_catch m h).
Proof.
  intros Hm Hh w. unfold try_catch. specialize (Hm w).
  destruct (m w) as [[a|e] w1]; [done|].
  eapply R_trans; [exact Hm|apply Hh].
Qed.

Lemma Respects_readFileSync p : Respects R (readFileSync p).
Proof.
  intros w. unfold readFileSync. destruct (files w !! p); apply R_refl.
Qed.

Lemma Respects_writeFileSync file b :
  Respects R (writeFileSync (lit "generated", file) b).
Proof.
  intros w. unfold writeFileSync. case_bool_decide; [apply R_put|apply R_refl].
Qed.

Lemma Respects_Date_now : Respects R (Date_now env).
Proof. intros w. apply R_tick. Qed.

Lemma Respects_generateContent modelName content :
  Respects R (generateContent env modelName content).
Proof. intros w. apply R_log. Qed.

Lemma Respects_saveGeneratedImage imageData mimeType filename :
  Respects R (saveGeneratedImage env imageData mimeType filename).
Proof.
  apply Respects_try_catch; [|apply Respects_throw].
  apply Respects_bind; [apply Respects_writeFileSync|].
  intros _. apply Respects_ret.
Qed.

Lemma Respects_imageToBase64 p : Respects R (imageToBase64 env p).
Proof.
  apply Respects_bind; [apply Respects_readFileSync|].
  intros b. apply Respects_ret.
Qed.

Lemma Respects_generateStepImage stepDescription referenceImageData previous
    stepNumber totalSteps :
  Respects R (generateStepImage env stepDescription referenceImageData
                previous stepNumber totalSteps).
Proof.
  apply Respects_try_catch; [|intros e; apply Respects_ret].
  apply Respects_bind; [apply Respects_generateContent|].
  intros response.
  destruct (firstCandidateParts response) as [ps|]; [|apply Respects_ret].
  destruct (firstInlineData ps) as [d|]; [|apply Respects_ret].
  apply Respects_bind.
  - apply Respects_try_catch; [|intros e; apply Respects_ret].
    apply Respects_bind; [apply Respects_Date_now|]. intros now.
    apply Respects_bind; [apply Respects_saveGeneratedImage|].
    intros url. apply Respects_ret.
  - intros [g|]; apply Respects_ret.
Qed.

Lemma Respects_generatePencilSketchFromImage imagePath difficulty :
  Respects R (generatePencilSketchFromImage env imagePath difficulty).
Proof.
  apply Respects_try_catch; [|intros e; apply Respects_ret].
  apply Respects_bind; [apply Respects_imageToBase64|]. intros imageBase64.
  apply Respects_bind; [apply Respects_generateContent|]. intros response.
  destruct (firstCandidateParts response) as [ps|]; [|apply Respects_throw].
  destruct (firstInlineData ps) as [d|]; [|apply Respects_ret].
  apply Respects_bind; [apply Respects_Date_now|]. intros now.
  apply Respects_bind; [apply Respects_saveGeneratedImage|].
  intros url. apply Respects_ret.
Qed.

Lemma Respects_analyzeImage imagePath :
  Respects R (analyzeImage env imagePath).
Proof.
  apply Respects_try_catch; [|apply Respects_throw].
  apply Respects_bind; [apply Respects_imageToBase64|]. intros imageBase64.
  apply Respects_bind; [apply Respects_generateContent|]. intros response.
  apply Respects_lift.
Qed.

Lemma Respects_determineOptimalSteps referenceImageData imageDescription :
  Respects R (determineOptimalSteps env referenceImageData imageDescription).
Proof.
  intros w. rewrite determineOptimalSteps_cases. apply R_log.
Qed.

Lemma Respects_generateTutorialPlan referenceImageData imageDescription
    totalSteps :
  Respects R (generateTutorialPlan env referenceImageData imageDescription
                totalSteps).
Proof.
  intros w. rewrite generateTutorialPlan_cases. apply R_log.
Qed.

Lemma Respects_stepLoop referenceSketchData tutorialPlan totalSteps
    remaining i st :
  Respects R (stepLoop env referenceSketchData tutorialPlan totalSteps
                remaining i st).
Proof.
  revert i st. induction remaining as [|n IH]; intros i st.
  - apply Respects_ret.
  - cbn [stepLoop]. apply Respects_bind; [|intros st'; apply IH].
    apply Respects_bind; [apply Respects_generateStepImage|].
    intros [g|]; [apply Respects_ret|apply Respects_throw].
Qed.

Lemma Respects_narrateSteps records : Respects R (narrateSteps records).
Proof. intros w. rewrite narrateSteps_narrated. apply R_refl. Qed.

Lemma Respects_generateTutorial req : Respects R (generateTutorial env req).
Proof.
  apply Respects_try_catch; [|intros e; apply Respects_ret].
  destruct (file req) as [filePath|]; [|apply Respects_ret].
  destruct (difficulty req) as [level|]; [|apply Respects_ret].
  destruct (truthy level); [|apply Respects_ret].
  apply Respects_bind; [apply Respects_generatePencilSketchFromImage|].
  intros sketch. cbn zeta.
  destruct (falsy (imageUrl sketch)); [apply Respects_throw|].
  apply Respects_bind; [apply Respects_analyzeImage|]. intros description.
  apply Respects_bind; [apply Respects_determineOptimalSteps|].
  intros stepCount. cbn zeta.
  apply Respects_bind; [apply Respects_generateTutorialPlan|]. intros plan.
  apply Respects_bind; [apply Respects_stepLoop|]. intros st.
  apply Respects_bind; [intros w; apply R_refl|].
  intros sketchAudio.
  apply Respects_bind; [apply Respects_narrateSteps|]. intros narrated.
  apply Respects_ret.
Qed.

End Respected.

Section Frame.

Context (env : Env).

Lemma OnlyGeneratedWritten_refl w : OnlyGeneratedWritten w w.
Proof. by split. Qed.

Lemma OnlyGeneratedWritten_trans w1 w2 w3 :
  OnlyGeneratedWritten w1 w2 -> OnlyGeneratedWritten w2 w3 ->
  OnlyGeneratedWritten w1 w3.
Proof.
  intros [Hd1 Hf1] [Hd2 Hf2]. split; [congruence|].
  intros p Hp. by rewrite Hf2, Hf1.
Qed.

Lemma OnlyGeneratedWritten_put file b w :
  OnlyGeneratedWritten w (put_file (lit "generated", file) b w).
Proof.
  split; [done|]. intros p Hp. cbn. apply lookup_insert_ne.
  intros <-. by apply Hp.
Qed.

Lemma FilesKept_trans w1 w2 w3 :
  FilesKept w1 w2 -> FilesKept w2 w3 -> FilesKept w1 w3.
Proof. intros H1 H2 p Hp. by apply H2, H1. Qed.

Lemma FilesKept_put p b w : FilesKept w (put_file p b w).
Proof.
  intros q Hq. cbn. destruct (decide (p = q)) as [->|Hne].
  - rewrite lookup_insert_eq. by eexists.
  - by rewrite lookup_insert_ne.
Qed.

(** Every computation of the server keeps the files that are there. *)
Lemma keeps_files {A} (m : M A) :
  (forall R : World -> World -> Prop,
      (forall w, R w w) ->
      (forall w1 w2 w3, R w1 w2 -> R w2 w3 -> R w1 w3) ->
      (forall c w, R w (log_call c w)) ->
      (forall w, R w (tick w)) ->
      (forall file b w, R w (put_file (lit "generated", file) b w)) ->
      Respects R m) ->
  forall w r w', m w = (r, w') -> FilesKept w w'.
Proof.
  intros Hm w r w' Hrun.
  specialize (Hm FilesKept (fun w p Hp => Hp) FilesKept_trans
                (fun c w p Hp => Hp) (fun w p Hp => Hp)
                (fun file b w => FilesKept_put _ b w) w).
  by rewrite Hrun in Hm.
Qed.

(** X5: whatever the request and whatever the outcome, the handler
    creates and removes no directory, writes no file outside the
    directory [generated] and removes no file at all; in particular the
    uploaded file is left in place. *)
Theorem handler_writes_only_generated req w :
  OnlyGeneratedWritten w (snd (generateTutorial env req w)) /\
  FilesKept w (snd (generateTutorial env req w)).
Proof.
  split.
  - apply (Respects_generateTutorial env OnlyGeneratedWritten
             OnlyGeneratedWritten_refl OnlyGeneratedWritten_trans);
      [done..|apply OnlyGeneratedWritten_put].
  - eapply (keeps_files (generateTutorial env req)); [|apply surjective_pairing].
    intros R ? ? ? ? ?. by apply Respects_generateTutorial.
Qed.

End Frame.

(** ** The sketch and the description *)

Section Sketch.

Context (env : Env).

(** [generatePencilSketchFromImage], outcome by outcome. *)
Lemma generatePencilSketchFromImage_cases imagePath difficulty w :
  generatePencilSketchFromImage env imagePath difficulty w =
  match files w !! imagePath with
  | None => (Ok noImage, w)
  | Some bytes =>
      let c := sketchCall difficulty (base64_encode env bytes) in
      let sent := log_call c w in
      match gemini env (length (calls w)) c with
      | Err e => (Ok noImage, sent)
      | Ok response =>
          match firstCandidateParts response with
          | Some ps =>
              match firstInlineData ps with
              | Some d =>
                  match saveGeneratedImage env (data d) (mimeType d)
                          (sketchFilename (clock env (readings w)))
                          (tick sent) with
                  | (Ok url, w') =>
                      (Ok {| imageUrl := Some url; imageData := Some d |}, w')
                  | (Err e, w') => (Ok noImage, w')
                  end
              | None => (Ok noImage, sent)
              end
          | None => (Ok noImage, sent)
          end
      end
  end.
Proof.
  unfold generatePencilSketchFromImage, imageToBase64, try_catch, bind,
    readFileSync, generateContent, Date_now, ret, throw.
  cbv beta. destruct (files w !! imagePath) as [bytes|]; [|done].
  cbn zeta. fold (sketchCall difficulty (base64_encode env bytes)).
  destruct (gemini env _ _) as [response|e]; [|done].
  destruct (firstCandidateParts response) as [ps|]; [|done].
  destruct (firstInlineData ps) as [d|]; [|done].
  cbn [readings log_call]. unfold sketchFilename.
  by destruct (saveGeneratedImage _ _ _ _ _) as [[url|e] w'].
Qed.

(** [analyzeImage], outcome by outcome. *)
Lemma analyzeImage_cases imagePath w :
  analyzeImage env imagePath w =
  match files w !! imagePath with
  | None => (Err (enoent imagePath), w)
  | Some bytes =>
      let c := visionCall (base64_encode env bytes) in
      (match gemini env (length (calls w)) c with
       | Ok response => text response
       | Err e => Err e
       end, log_call c w)
  end.
Proof.
  unfold analyzeImage. rewrite try_catch_rethrow.
  unfold imageToBase64, bind, readFileSync, generateContent, ret, lift.
  cbv beta. destruct (files w !! imagePath) as [bytes|]; [|done].
  cbn zeta. fold (visionCall (base64_encode env bytes)).
  by destruct (gemini env _ _) as [response|e].
Qed.

Lemma saved_url_truthy imageData mimeType filename w url w' :
  saveGeneratedImage env imageData mimeType filename w = (Ok url, w') ->
  url = lit "/generated/" ++ filename ++ extensionFor mimeType /\
  files w' !! (lit "generated", filename ++ extensionFor mimeType)
  = Some (base64_decode env imageData).
Proof.
  rewrite saveGeneratedImage_cases. cbn zeta.
  case_bool_decide; [|done]. intros [= <- <-]. split; [done|].
  cbn. apply lookup_insert_eq.
Qed.

(** X6: [generatePencilSketchFromImage] never throws.  Its result is
    either the pair of nulls or an image with its URL; in the second case
    the URL is [/generated/reference_sketch_<time>] with the extension of
    the image type, not the empty string, and the file of that name holds
    the decoded image. *)
Theorem sketch_result imagePath difficulty w :
  exists sketch w',
    generatePencilSketchFromImage env imagePath difficulty w
    = (Ok sketch, w') /\
    (sketch = noImage \/
     exists d now,
       sketch = {| imageUrl :=
                     Some (lit "/generated/" ++ sketchFilename now
                           ++ extensionFor (mimeType d));
                   imageData := Some d |} /\
       falsy (imageUrl sketch) = false /\
       files w' !! (lit "generated",
                    sketchFilename now ++ extensionFor (mimeType d))
       = Some (base64_decode env (data d))).
Proof.
  rewrite generatePencilSketchFromImage_cases.
  destruct (files w !! imagePath) as [bytes|]; [|by eexists _, _; eauto].
  cbn zeta.
  destruct (gemini env _ _) as [response|e]; [|by eexists _, _; eauto].
  destruct (firstCandidateParts response) as [ps|];
    [|by eexists _, _; eauto].
  destruct (firstInlineData ps) as [d|]; [|by eexists _, _; eauto].
  destruct (saveGeneratedImage _ _ _ _ _) as [[url|e] w'] eqn:Hsave;
    [|by eexists _, _; eauto].
  apply saved_url_truthy in Hsave as [-> Hfile].
  eexists _, _. split; [reflexivity|]. right.
  exists d, (clock env (readings w)). by repeat split.
Qed.

(** X7: when the uploaded file cannot be read, neither function sends
    a request to the model: the sketch generator returns the pair of
    nulls, and the analysis throws the error of the read. *)
Theorem unreadable_upload imagePath difficulty w :
  files w !! imagePath = None ->
  generatePencilSketchFromImage env imagePath difficulty w = (Ok noImage, w)
  /\ analyzeImage env imagePath w = (Err (enoent imagePath), w).
Proof.
  intros Hfile.
  rewrite generatePencilSketchFromImage_cases, analyzeImage_cases.
  by rewrite Hfile.
Qed.

(** X8: [generateStepImage] never throws.  A result that is not [null]
    is either the pair of nulls or an image with its URL; in the second
    case the URL is [/generated/step_<number>_<time>] with the extension
    of the image type, and the file of that name holds the decoded
    image. *)
Theorem step_image_result stepDescription referenceImageData previous
    stepNumber totalSteps w :
  exists r w',
    generateStepImage env stepDescription referenceImageData previous
      stepNumber totalSteps w = (Ok r, w') /\
    (r = None \/ r = Some noImage \/
     exists d now,
       r = Some {| imageUrl :=
                     Some (lit "/generated/" ++ stepFilename stepNumber now
                           ++ extensionFor (mimeType d));
                   imageData := Some d |} /\
       files w' !! (lit "generated",
                    stepFilename stepNumber now ++ extensionFor (mimeType d))
       = Some (base64_decode env (data d))).
Proof.
  rewrite generateStepImage_cases. cbn zeta.
  destruct (gemini env _ _) as [response|e]; [|by eexists _, _; eauto].
  destruct (firstCandidateParts response) as [ps|];
    [|by eexists _, _; eauto].
  destruct (firstInlineData ps) as [d|]; [|by eexists _, _; eauto].
  destruct (saveGeneratedImage _ _ _ _ _) as [[url|e] w'] eqn:Hsave;
    [|by eexists _, _; eauto].
  apply saved_url_truthy in Hsave as [-> Hfile].
  eexists _, _. split; [reflexivity|]. right. right.
  exists d, (clock env (readings w)). by split.
Qed.

End Sketch.

(** ** The request handler, continued *)

Section HandlerMore.

Context (env : Env).

(** The handler once the loop is reached: the response is decided by
    the step loop alone. *)
Lemma generateTutorial_from_loop req w sketchUrl sketchData imageDescription
    plan totalSteps w4 :
  ReachesLoop env req w sketchUrl sketchData imageDescription plan totalSteps
    w4 ->
  generateTutorial env req w =
  match stepLoop env sketchData plan totalSteps totalSteps 0
          initialLoopState w4 with
  | (Ok st, w5) => (Ok (tutorial sketchUrl imageDescription st), w5)
  | (Err e, w5) => (Ok (failure (message e)), w5)
  end.
Proof.
  intros (filePath & level & sketch & w1 & w2 & stepCount & w3 & Hfile
          & Hlevel & Htruthy & Hsketch & Hurl & Hurl' & Hdata & Hanalyze
          & Hcount & -> & Hplan).
  subst sketchData.
  unfold generateTutorial, try_catch. rewrite Hfile, Hlevel, Htruthy.
  unfold bind at 1. rewrite Hsketch. cbn zeta. rewrite Hurl. cbn [falsy].
  rewrite Hurl'. cbn [negb]. unfold bind at 1. rewrite Hanalyze.
  unfold bind at 1. rewrite Hcount. cbn zeta.
  unfold bind at 1. rewrite Hplan. unfold bind at 1.
  destruct (stepLoop _ _ _ _ _ _ _ _) as [[st|e] w5]; [|done].
  unfold bind.
  by rewrite generateAudioNarration_placeholder, narrateSteps_narrated.
Qed.

(** The loop, cut in two. *)
Lemma stepLoop_app referenceSketchData tutorialPlan totalSteps n m i st w :
  stepLoop env referenceSketchData tutorialPlan totalSteps (n + m) i st w
  = bind (stepLoop env referenceSketchData tutorialPlan totalSteps n i st)
         (stepLoop env referenceSketchData tutorialPlan totalSteps m (i + n))
         w.
Proof.
  revert i st w. induction n as [|n IH]; intros i st w.
  - cbn. unfold bind, ret. by rewrite Nat.add_0_r.
  - cbn [Nat.add stepLoop]. unfold bind.
    destruct (stepIteration _ _ _ _ _ _ _) as [[st'|e] w']; [|done].
    rewrite IH. unfold bind.
    by replace (S i + n)%nat with (i + S n)%nat by lia.
Qed.

(** X9: a request without a file, or without a difficulty, is answered
    with status 400 before anything is done: the world is unchanged.  The
    file is looked at first. *)
Theorem invalid_request_rejected req w :
  file req = None \/ falsy (difficulty req) = true ->
  generateTutorial env req w =
  (Ok (rejection (match file req with
                  | None => lit "No image provided"
                  | Some _ => lit "Difficulty level is required"
                  end)), w).
Proof.
  intros Hinvalid. unfold generateTutorial, try_catch.
  destruct (file req) as [filePath|]; [|done].
  destruct Hinvalid as [|Hfalsy]; [done|].
  destruct (difficulty req) as [level|]; [|done].
  cbn in Hfalsy. apply negb_true_iff in Hfalsy. by rewrite Hfalsy.
Qed.

(** X10: the handler never throws: every request gets a response, and
    its status is 200, 400 or 500. *)
Theorem handler_always_responds req w :
  exists resp w',
    generateTutorial env req w = (Ok resp, w') /\
    (status resp = 200 \/ status resp = 400 \/ status resp = 500)%nat.
Proof.
  unfold generateTutorial, try_catch.
  destruct (file req) as [filePath|]; [|by eexists _, _; eauto].
  destruct (difficulty req) as [level|]; [|by eexists _, _; eauto].
  destruct (truthy level); [|by eexists _, _; eauto].
  unfold bind at 1.
  destruct (generatePencilSketchFromImage env filePath level w)
    as [[sketch|e] w1]; [|by eexists _, _; eauto].
  cbn zeta. destruct (falsy (imageUrl sketch)); [by eexists _, _; eauto|].
  unfold bind at 1.
  destruct (analyzeImage env filePath w1) as [[imageDescription|e] w2];
    [|by eexists _, _; eauto].
  unfold bind at 1.
  destruct (determineOptimalSteps env (imageData sketch) imageDescription w2)
    as [[stepCount|e] w3]; [|by eexists _, _; eauto].
  cbn zeta. unfold bind at 1.
  destruct (generateTutorialPlan env (imageData sketch) imageDescription
              (Z.to_nat stepCount) w3)
    as [[plan|e] w4]; [|by eexists _, _; eauto].
  unfold bind at 1.
  destruct (stepLoop env (imageData sketch) plan (Z.to_nat stepCount)
              (Z.to_nat stepCount) 0 initialLoopState w4)
    as [[st|e] w5]; [|by eexists _, _; eauto].
  unfold bind.
  rewrite generateAudioNarration_placeholder, narrateSteps_narrated.
  by eexists _, _; eauto.
Qed.

(** X11: when the sketch generator returns no image, for whatever
    reason, the response has status 500 and tells that the reference
    sketch failed; nothing is done after the sketch generator. *)
Theorem missing_sketch_is_fatal req w filePath level sketch w1 :
  file req = Some filePath ->
  difficulty req = Some level ->
  truthy level = true ->
  generatePencilSketchFromImage env filePath level w = (Ok sketch, w1) ->
  imageUrl sketch = None ->
  generateTutorial env req w = (Ok (failure sketchFailed), w1).
Proof.
  intros Hfile Hlevel Htruthy Hsketch Hurl.
  unfold generateTutorial, try_catch. rewrite Hfile, Hlevel, Htruthy.
  unfold bind at 1. rewrite Hsketch. cbn zeta. by rewrite Hurl.
Qed.

(** X12: when the analysis of the upload throws, the response has
    status 500 and carries the message of the error, although the
    reference sketch was generated and saved; no step count, plan or
    step image is asked for. *)
Theorem failed_analysis_is_fatal req w filePath level sketch url w1 e w2 :
  file req = Some filePath ->
  difficulty req = Some level ->
  truthy level = true ->
  generatePencilSketchFromImage env filePath level w = (Ok sketch, w1) ->
  imageUrl sketch = Some url ->
  truthy url = true ->
  analyzeImage env filePath w1 = (Err e, w2) ->
  generateTutorial env req w = (Ok (failure (message e)), w2).
Proof.
  intros Hfile Hlevel Htruthy Hsketch Hurl Hurl' Hanalyze.
  unfold generateTutorial, try_catch. rewrite Hfile, Hlevel, Htruthy.
  unfold bind at 1. rewrite Hsketch. cbn zeta. rewrite Hurl. cbn [falsy].
  rewrite Hurl'. cbn [negb]. unfold bind at 1. by rewrite Hanalyze.
Qed.

(** X13: when the loop has run [i] iterations, fewer than the step
    count, and the model throws on the next request, the response has
    status 500 with the message of the failed destructuring, whatever
    the steps before it produced. *)
Theorem failed_step_call_is_fatal req w sketchUrl sketchData imageDescription
    plan totalSteps w4 i produced st w5 e :
  ReachesLoop env req w sketchUrl sketchData imageDescription plan totalSteps
    w4 ->
  LoopRun env sketchData plan totalSteps w4 i produced st w5 ->
  (i < totalSteps)%nat ->
  gemini env (length (calls w5))
    (stepImageCall (stepDescriptionAt plan i) sketchData (i + 1) totalSteps
       (recentPart (last (previousStepsImagesData st)))) = Err e ->
  generateTutorial env req w =
  (Ok (failure (message destructureNull)),
   log_call
     (stepImageCall (stepDescriptionAt plan i) sketchData (i + 1) totalSteps
        (recentPart (last (previousStepsImagesData st)))) w5).
Proof.
  intros Hreach Hrun Hi Hthrow.
  rewrite (generateTutorial_from_loop _ _ _ _ _ _ _ _ Hreach).
  assert (exists k, totalSteps = (i + S k)%nat) as [k Hk]
    by (exists (totalSteps - S i)%nat; lia).
  replace (stepLoop env sketchData plan totalSteps totalSteps 0
             initialLoopState w4)
    with (stepLoop env sketchData plan totalSteps (i + S k) 0
            initialLoopState w4)
    by (by rewrite <- Hk).
  rewrite stepLoop_app.
  assert (stepLoop env sketchData plan totalSteps i 0 initialLoopState w4
          = (Ok st, w5)) as Hprefix
    by (apply LoopRun_iff_stepLoop; eauto).
  rewrite (bind_ok _ _ _ _ _ Hprefix). cbn [Nat.add stepLoop].
  unfold bind at 1. unfold stepIteration, bind. cbn zeta.
  rewrite generateStepImage_cases. cbn zeta. by rewrite Hthrow.
Qed.

End HandlerMore.

(** ** The requests of a successful run *)

Section Requests.

Context (env : Env).

(** A response with status 200 comes from a request that reached the
    loop and whose loop ran to its end. *)
Lemma generateTutorial_200_reaches req w resp w' :
  generateTutorial env req w = (Ok resp, w') ->
  status resp = 200%nat ->
  exists sketchUrl sketchData imageDescription plan totalSteps w4 st,
    ReachesLoop env req w sketchUrl sketchData imageDescription plan
      totalSteps w4 /\
    stepLoop env sketchData plan totalSteps totalSteps 0 initialLoopState w4
    = (Ok st, w') /\
    resp = tutorial sketchUrl imageDescription st.
Proof.
  unfold generateTutorial, try_catch. intros Hrun Hstatus.
  destruct (file req) as [filePath|] eqn:Hfile; [|other_status Hrun Hstatus].
  destruct (difficulty req) as [level|] eqn:Hlevel;
    [|other_status Hrun Hstatus].
  destruct (truthy level) eqn:Htruthy; [|other_status Hrun Hstatus].
  unfold bind at 1 in Hrun.
  destruct (generatePencilSketchFromImage env filePath level w)
    as [[sketch|e] w1] eqn:Hsketch; [|other_status Hrun Hstatus].
  cbn zeta in Hrun.
  destruct (imageUrl sketch) as [sketchUrl|] eqn:Hurl;
    [|other_status Hrun Hstatus].
  cbn [falsy] in Hrun.
  destruct (truthy sketchUrl) eqn:Hurl'; [|other_status Hrun Hstatus].
  cbn [negb] in Hrun. unfold bind at 1 in Hrun.
  destruct (analyzeImage env filePath w1)
    as [[imageDescription|e] w2] eqn:Hanalyze; [|other_status Hrun Hstatus].
  unfold bind at 1 in Hrun.
  destruct (determineOptimalSteps env (imageData sketch) imageDescription w2)
    as [[stepCount|e] w3] eqn:Hcount; [|other_status Hrun Hstatus].
  cbn zeta in Hrun. unfold bind at 1 in Hrun.
  destruct (generateTutorialPlan env (imageData sketch) imageDescription
              (Z.to_nat stepCount) w3)
    as [[plan|e] w4] eqn:Hplan; [|other_status Hrun Hstatus].
  unfold bind at 1 in Hrun.
  destruct (stepLoop env (imageData sketch) plan (Z.to_nat stepCount)
              (Z.to_nat stepCount) 0 initialLoopState w4)
    as [[st|e] w5] eqn:Hloop; [|other_status Hrun Hstatus].
  unfold bind in Hrun.
  rewrite generateAudioNarration_placeholder, narrateSteps_narrated in Hrun.
  unfold ret in Hrun. injection Hrun as <- <-.
  exists sketchUrl, (imageData sketch), imageDescription, plan,
    (Z.to_nat stepCount), w4, st.
  split; [|done].
  by exists filePath, level, sketch, w1, w2, stepCount, w3.
Qed.

(** A sketch with a URL took one request; the upload was read. *)
Lemma sketch_request imagePath difficulty w sketch w1 url :
  generatePencilSketchFromImage env imagePath difficulty w = (Ok sketch, w1) ->
  imageUrl sketch = Some url ->
  exists bytes,
    files w !! imagePath = Some bytes /\
    calls w1 = calls w ++ [sketchCall difficulty (base64_encode env bytes)].
Proof.
  rewrite generatePencilSketchFromImage_cases. intros Hsketch Hurl.
  destruct (files w !! imagePath) as [bytes|]; [|by simplify_eq].
  exists bytes. split; [done|]. cbn zeta in Hsketch.
  destruct (gemini env _ _) as [response|e]; [|by simplify_eq].
  destruct (firstCandidateParts response) as [ps|]; [|by simplify_eq].
  destruct (firstInlineData ps) as [d|]; [|by simplify_eq].
  destruct (saveGeneratedImage _ _ _ _ _) as [[url'|e] w'] eqn:Hsave;
    [|by simplify_eq].
  apply saveGeneratedImage_quiet in Hsave as [Hcalls _].
  simplify_eq. by rewrite Hcalls.
Qed.

(** A description took one request; the upload was read. *)
Lemma analysis_request imagePath w imageDescription w2 :
  analyzeImage env imagePath w = (Ok imageDescription, w2) ->
  exists bytes,
    files w !! imagePath = Some bytes /\
    calls w2 = calls w ++ [visionCall (base64_encode env bytes)].
Proof.
  rewrite analyzeImage_cases.
  destruct (files w !! imagePath) as [bytes|]; [|done].
  cbn zeta. intros [= _ <-]. by exists bytes.
Qed.

(** The loop takes one request for each iteration. *)
Lemma stepLoop_requests referenceSketchData tutorialPlan totalSteps
    remaining i st w st' w' :
  stepLoop env referenceSketchData tutorialPlan totalSteps remaining i st w
  = (Ok st', w') ->
  exists stepCalls,
    calls w' = calls w ++ stepCalls /\
    length stepCalls = remaining /\
    forall k c, stepCalls !! k = Some c ->
      exists recent,
        c = stepImageCall (stepDescriptionAt tutorialPlan (i + k))
              referenceSketchData (i + k + 1) totalSteps
              (recentPart recent).
Proof.
  revert i st w. induction remaining as [|n IH]; intros i st w Hloop.
  - cbn in Hloop. unfold ret in Hloop. simplify_eq.
    exists []. by rewrite app_nil_r.
  - cbn [stepLoop] in Hloop.
    apply bind_ok_inv in Hloop as (st1 & w1 & Hiter & Hrest).
    apply stepIteration_ok_inv in Hiter as (g & Hgen & ->).
    destruct (generateStepImage_sends env (stepDescriptionAt tutorialPlan i)
                referenceSketchData (previousStepsImagesData st) (i + 1)
                totalSteps w) as (r & w1' & Hgen' & Hcalls).
    rewrite Hgen in Hgen'. injection Hgen' as <- <-.
    apply IH in Hrest as (rest & Hrest & Hlength & Hshape).
    eexists (_ :: rest). split; [|split].
    + by rewrite Hrest, Hcalls, <- app_assoc.
    + cbn. by rewrite Hlength.
    + intros [|k] c Hc; cbn in Hc.
      * simplify_eq. rewrite Nat.add_0_r. by eexists.
      * apply Hshape in Hc as (recent & ->). exists recent.
        by replace (S i + k)%nat with (i + S k)%nat by lia.
Qed.

(** X14: a response with status 200 took exactly four requests and one
    more for each step, in this order: the request for the sketch, with
    the difficulty of the request and the bytes of the upload declared
    as JPEG; the request for the description, with the bytes of the
    upload as they are then, the same bytes when the upload lies outside
    [generated]; the request for the step count and the request for the
    plan, both with the data of that sketch and that description; and
    the requests for the step images in the order of the steps, each
    with the entry of the plan for its step, the data of the sketch and
    at most one more image.  The step count lies between 8 and 20, and
    the response carries the URL of that sketch, that description and
    the entries of that plan. *)
Theorem successful_request_calls req w resp w' :
  generateTutorial env req w = (Ok resp, w') ->
  status resp = 200%nat ->
  exists filePath level bytes sketch w1 bytes' imageDescription w2
         stepCount w3 plan w4 sketchInfo records (stepCalls : list Call),
    file req = Some filePath /\
    difficulty req = Some level /\
    files w !! filePath = Some bytes /\
    generatePencilSketchFromImage env filePath level w = (Ok sketch, w1) /\
    files w1 !! filePath = Some bytes' /\
    (fst filePath <> lit "generated" -> bytes' = bytes) /\
    analyzeImage env filePath w1 = (Ok imageDescription, w2) /\
    determineOptimalSteps env (imageData sketch) imageDescription w2
    = (Ok stepCount, w3) /\
    8 <= stepCount <= 20 /\
    generateTutorialPlan env (imageData sketch) imageDescription
      (Z.to_nat stepCount) w3 = (Ok plan, w4) /\
    body resp = TutorialBody sketchInfo records /\
    sketchImageUrl sketchInfo = imageUrl sketch /\
    sketchDescription sketchInfo = imageDescription /\
    description <$> records = plan /\
    calls w' = calls w ++
      [sketchCall level (base64_encode env bytes);
       visionCall (base64_encode env bytes');
       stepCountCall (imageData sketch) imageDescription;
       planCall (imageData sketch) imageDescription (Z.to_nat stepCount)]
      ++ stepCalls /\
    length stepCalls = Z.to_nat stepCount /\
    forall k c, stepCalls !! k = Some c ->
      exists stepDescription recent,
        plan !! k = Some stepDescription /\
        c = stepImageCall stepDescription (imageData sketch) (k + 1)
              (Z.to_nat stepCount) (recentPart recent).
Proof.
  intros Hrun Hstatus.
  destruct (generateTutorial_200_reaches req w resp w' Hrun Hstatus)
    as (sketchUrl & sketchData & imageDescription & plan & totalSteps & w4
        & st & Hreach & Hloop & ->).
  destruct Hreach
    as (filePath & level & sketch & w1 & w2 & stepCount & w3 & Hfile & Hlevel
        & _ & Hsketch & Hurl & _ & <- & Hanalyze & Hcount & -> & Hplan).
  destruct (sketch_request _ _ _ _ _ _ Hsketch Hurl)
    as (bytes & Hbytes & Hcalls1).
  destruct (analysis_request _ _ _ _ Hanalyze)
    as (bytes' & Hbytes' & Hcalls2).
  pose proof (determineOptimalSteps_range _ _ _ _ _ _ Hcount) as Hrange.
  destruct (generateTutorialPlan_shape _ _ _ _ _ _ _ Hplan)
    as [Hlength Hnonempty].
  pose proof (Respects_generatePencilSketchFromImage env OnlyGeneratedWritten
                OnlyGeneratedWritten_refl OnlyGeneratedWritten_trans
                ltac:(done) ltac:(done) OnlyGeneratedWritten_put
                filePath level w) as [_ Hkept].
  rewrite Hsketch in Hkept. cbn [snd] in Hkept.
  destruct (stepLoop_requests _ _ _ _ _ _ _ _ _ Hloop)
    as (stepCalls & Hcalls & Hcount' & Hshape).
  apply stepLoop_steps in Hloop as [_ Hdescr]. cbn in Hdescr.
  exists filePath, level, bytes, sketch, w1, bytes', imageDescription, w2,
    stepCount, w3, plan, w4,
    {| sketchImageUrl := Some sketchUrl;
       sketchDescription := imageDescription;
       sketchAudio := Some placeholder |}, (narrated <$> steps st), stepCalls.
  repeat (split; [done|]).
  split.
  { intros Houtside. apply Hkept in Houtside.
    rewrite Hbytes, Hbytes' in Houtside. by injection Houtside. }
  repeat (split; [done|]).
  split.
  { rewrite <- list_fmap_compose.
    change (description ∘ narrated) with description. rewrite Hdescr.
    rewrite <- Hlength at 1. by apply stepDescriptions_plan. }
  split.
  { rewrite Hcalls.
    pose proof Hcount as Hcount''. pose proof Hplan as Hplan'.
    rewrite determineOptimalSteps_cases in Hcount''.
    injection Hcount'' as _ <-.
    rewrite generateTutorialPlan_cases in Hplan'. injection Hplan' as _ <-.
    cbn [calls log_call]. rewrite Hcalls2, Hcalls1.
    by rewrite <- !app_assoc. }
  split; [done|].
  intros k c Hc.
  assert (k < length plan)%nat as Hk.
  { rewrite Hlength, <- Hcount'. by apply lookup_lt_Some in Hc. }
  apply lookup_lt_is_Some_2 in Hk as [stepDescription Hk].
  apply Hshape in Hc as (recent & ->). cbn [Nat.add].
  exists stepDescription, recent. split; [done|].
  by rewrite (stepDescriptionAt_plan plan k stepDescription Hnonempty Hk).
Qed.

End Requests.

(** ** The records of the steps *)

Section Records.

Context (env : Env) (referenceSketchData : option InlineData)
  (tutorialPlan : list jsstring) (totalSteps : nat).

Lemma generateStepImage_some stepDescription previous stepNumber w g w' :
  generateStepImage env stepDescription referenceSketchData previous
    stepNumber totalSteps w = (Ok (Some g), w') ->
  match imageData g with
  | None => imageUrl g = None
  | Some d =>
      exists now,
        imageUrl g = Some (lit "/generated/" ++ stepFilename stepNumber now
                           ++ extensionFor (mimeType d))
  end.
Proof.
  rewrite generateStepImage_cases. cbn zeta.
  destruct (gemini env _ _) as [response|e]; [|done].
  destruct (firstCandidateParts response) as [ps|]; [|by intros [= <- _]].
  destruct (firstInlineData ps) as [d|]; [|by intros [= <- _]].
  destruct (saveGeneratedImage _ _ _ _ _) as [[url|e] w1] eqn:Hsave;
    [|by intros [= <- _]].
  apply saved_url_truthy in Hsave as [-> _]. intros [= <- _]. cbn.
  by eexists.
Qed.

(** X15: in every state of the step loop there is one record for each
    step so far; the records are numbered from 1 and carry the
    descriptions of the plan, without narration; a record has no image
    URL exactly when its step produced no image, and otherwise its URL
    is [/generated/step_<number>_<time>] with the extension of the
    image. *)
Theorem step_records_of_run w0 i produced st w :
  LoopRun env referenceSketchData tutorialPlan totalSteps w0
    i produced st w ->
  step <$> steps st = seq 1 i /\
  description <$> steps st = stepDescriptionAt tutorialPlan <$> seq 0 i /\
  Forall2 recordOf (steps st) produced.
Proof.
  induction 1 as [|i produced st w g w' Hrun (IHs & IHd & IHr) Hgen].
  - by repeat split.
  - cbn [recordStep steps]. rewrite !fmap_app, IHs, IHd, !seq_S, fmap_app.
    cbn. replace (i + 1)%nat with (S i) by lia.
    split; [done|]. split; [done|].
    apply Forall2_app; [done|]. constructor; [|constructor].
    split; [done|]. cbn.
    apply generateStepImage_some in Hgen.
    by replace (S i) with (i + 1)%nat by lia.
Qed.

End Records.

(** ** Trimming and numbers *)

Section Text.

Lemma drop_while_all p s : forallb p s = true -> drop_while p s = [].
Proof.
  induction s as [|c s IH]; [done|]. cbn.
  intros [Hc Hs]%andb_true_iff. rewrite Hc. by apply IH.
Qed.

Lemma drop_while_app p s t :
  drop_while p (s ++ t)
  = if forallb p s then drop_while p t else drop_while p s ++ t.
Proof.
  induction s as [|c s IH]; [done|]. cbn.
  destruct (p c); [by rewrite IH|done].
Qed.

Lemma drop_while_idemp p s : drop_while p (drop_while p s) = drop_while p s.
Proof.
  induction s as [|c s IH]; [done|]. cbn.
  destruct (p c) eqn:Hc; [done|]. cbn. by rewrite Hc.
Qed.

Lemma is_digit_range c :
  is_digit c = true <-> (48 <= c <= 57)%N.
Proof. unfold is_digit. rewrite andb_true_iff, !N.leb_le. done. Qed.

Lemma digit_not_space c : is_digit c = true -> is_space c = false.
Proof.
  intros Hc%is_digit_range. unfold is_space.
  repeat (apply orb_false_iff; split);
    try (apply N.eqb_neq; lia);
    apply andb_false_iff; rewrite !N.leb_gt; lia.
Qed.

Lemma trimStart_spaces spaces s :
  forallb is_space spaces = true -> trimStart (spaces ++ s) = trimStart s.
Proof. intros H. unfold trimStart. by rewrite drop_while_app, H. Qed.

Lemma trimStart_nonspace c s :
  is_space c = false -> trimStart (c :: s) = c :: s.
Proof. intros H. unfold trimStart. cbn. by rewrite H. Qed.

(** [trimEnd] leaves everything up to a character that is no white
    space. *)
Lemma trimEnd_app_nonspace s c t :
  is_space c = false -> trimEnd (s ++ c :: t) = s ++ c :: trimEnd t.
Proof.
  intros Hc. unfold trimEnd.
  rewrite rev_app_distr. cbn [rev]. rewrite <- app_assoc. cbn [app].
  rewrite drop_while_app.
  destruct (forallb is_space (rev t)) eqn:Hall.
  - rewrite (drop_while_all _ _ Hall). cbn. rewrite Hc. cbn.
    by rewrite rev_involutive.
  - rewrite rev_app_distr. cbn. rewrite rev_involutive.
    by rewrite <- app_assoc.
Qed.

Lemma trimEnd_spaces spaces :
  forallb is_space spaces = true -> trimEnd spaces = [].
Proof.
  intros H. unfold trimEnd. rewrite drop_while_all; [done|].
  rewrite forallb_forall in *. intros c Hc. apply H. by apply in_rev.
Qed.

Lemma trimEnd_cons c s :
  trimEnd (c :: s)
  = if is_space c && forallb is_space s then [] else c :: trimEnd s.
Proof.
  destruct (is_space c) eqn:Hc; cbn [andb].
  - unfold trimEnd. cbn [rev]. rewrite drop_while_app.
    destruct (forallb is_space s) eqn:Hall.
    + replace (forallb is_space (rev s)) with true; [cbn; by rewrite Hc|].
      symmetry. rewrite forallb_forall in *. intros x Hx. apply Hall.
      by apply in_rev.
    + replace (forallb is_space (rev s)) with false.
      * rewrite rev_app_distr. done.
      * symmetry. apply not_true_is_false. intros H. 
        assert (forallb is_space s = true); [|congruence].
        rewrite forallb_forall in *. intros x Hx. apply H.
        by apply in_rev in Hx.
  - apply (trimEnd_app_nonspace [] c s Hc).
Qed.

Lemma trimStart_trimEnd s : trimStart (trimEnd s) = trimEnd (trimStart s).
Proof.
  induction s as [|c s IH]; [done|].
  rewrite trimEnd_cons. destruct (is_space c) eqn:Hc; cbn [andb].
  - unfold trimStart at 2. cbn [drop_while]. rewrite Hc.
    fold (trimStart s).
    destruct (forallb is_space s) eqn:Hall.
    + unfold trimStart at 2. by rewrite (drop_while_all _ _ Hall).
    + unfold trimStart at 1. cbn [drop_while]. rewrite Hc. apply IH.
  - rewrite !trimStart_nonspace by done. rewrite trimEnd_cons, Hc. done.
Qed.

Lemma trimEnd_idemp s : trimEnd (trimEnd s) = trimEnd s.
Proof.
  unfold trimEnd. by rewrite rev_involutive, drop_while_idemp.
Qed.

Lemma trimStart_idemp s : trimStart (trimStart s) = trimStart s.
Proof. apply drop_while_idemp. Qed.

(** Trimming a text that was trimmed at one end or at both gives the
    trimmed text. *)
Lemma trim_trimStart_trimEnd s : trim (trimStart (trimEnd s)) = trim s.
Proof.
  unfold trim.
  by rewrite trimStart_idemp, trimStart_trimEnd, trimEnd_idemp.
Qed.

(** X16: a line that consists of white space, digits, a period and a
    rest gives the rest, trimmed, as its entry, whatever the digits are;
    it gives no entry when the rest is blank. *)
Theorem numbered_line_entry spaces digits rest :
  forallb is_space spaces = true ->
  digits <> [] ->
  forallb is_digit digits = true ->
  planLine (spaces ++ digits ++ 46%N :: rest)
  = if truthy (trim rest) then Some (trim rest) else None.
Proof.
  intros Hspaces Hne Hdigits.
  assert (trim (spaces ++ digits ++ 46%N :: rest)
          = digits ++ 46%N :: trimEnd rest) as Htrim.
  { unfold trim. rewrite trimStart_spaces by done.
    destruct digits as [|c digits]; [done|]. cbn in Hdigits.
    apply andb_true_iff in Hdigits as [Hc _].
    cbn [app]. rewrite trimStart_nonspace by by apply digit_not_space.
    by apply (trimEnd_app_nonspace (c :: digits)). }
  unfold planLine. rewrite Htrim.
  replace (startsWithNumeral (digits ++ 46%N :: trimEnd rest)) with true
    by (symmetry; apply startsWithNumeral_iff; eauto).
  rewrite stripNumeral_numbered by done.
  by rewrite trim_trimStart_trimEnd.
Qed.

Lemma digit_value_decimal c :
  is_digit c = true -> digit_value 10 c = Some (Z.of_N c - 48).
Proof.
  intros Hc%is_digit_range. unfold digit_value.
  replace ((48 <=? Z.of_N c) && (Z.of_N c <=? 57)) with true
    by (symmetry; apply andb_true_iff; rewrite !Z.leb_le; lia).
  by replace (Z.of_N c - 48 <? 10) with true
    by (symmetry; apply Z.ltb_lt; lia).
Qed.

(** Reading the digits of a decimal number. *)
Lemma read_digits_uint d acc seen :
  read_digits 10 (lit (NilEmpty.string_of_uint d)) acc seen
  = match d with
    | Decimal.Nil => if seen then Some acc else None
    | _ => Some (uint_value d acc)
    end.
Proof.
  revert acc seen.
  induction d as [|d IH|d IH|d IH|d IH|d IH|d IH|d IH|d IH|d IH|d IH];
    intros acc seen; [done|..];
    change (read_digits 10 (lit (NilEmpty.string_of_uint ?x)) ?a ?s)
      with (read_digits 10 (lit (NilEmpty.string_of_uint x)) a s) in IH;
    cbn [NilEmpty.string_of_uint uint_value];
    unfold lit; cbn [list_ascii_of_string List.map read_digits];
    fold (lit (NilEmpty.string_of_uint d));
    rewrite digit_value_decimal by done; rewrite IH;
    match goal with
    | |- context [Z.of_N (N_of_ascii ?a) - 48] =>
        let v := eval vm_compute in (Z.of_N (N_of_ascii a) - 48) in
        change (Z.of_N (N_of_ascii a) - 48) with v
    end;
    rewrite ?Z.add_0_r; by destruct d.
Qed.

Lemma uint_value_of_uint_acc d acc :
  Z.pos (Pos.of_uint_acc d acc) = uint_value d (Z.pos acc).
Proof.
  revert acc. induction d; intros acc; cbn; [done|..]; rewrite IHd;
    f_equal; lia.
Qed.

Lemma uint_value_of_uint d : Z.of_N (N.of_uint d) = uint_value d 0.
Proof.
  unfold N.of_uint. induction d; cbn; try done;
    by rewrite uint_value_of_uint_acc.
Qed.

Lemma lit_uint_digits d :
  forallb is_digit (lit (NilEmpty.string_of_uint d)) = true.
Proof.
  induction d; [done|..];
    cbn [NilEmpty.string_of_uint]; unfold lit;
    cbn [list_ascii_of_string List.map forallb];
    apply andb_true_iff; (split; [reflexivity|exact IHd]).
Qed.

(** The decimal rendering of a number: digits, at least one. *)
Lemma decimal_digits n :
  decimal n <> [] /\ forallb is_digit (decimal n) = true.
Proof.
  unfold decimal, NilZero.string_of_uint.
  destruct (N.to_uint n) eqn:Hd; [done|..];
    (split; [done|rewrite <- Hd at 1; apply lit_uint_digits]).
Qed.

Ltac digit_cases c Hc :=
  apply is_digit_range in Hc;
  assert (c = 48 \/ c = 49 \/ c = 50 \/ c = 51 \/ c = 52 \/ c = 53
          \/ c = 54 \/ c = 55 \/ c = 56 \/ c = 57)%N
    as [->|[->|[->|[->|[->|[->|[->|[->|[->| ->]]]]]]]]] by lia.

Ltac read_plain :=
  cbv beta iota zeta;
  match goal with
  | |- context [read_digits ?r ?s ?a ?b] =>
      destruct (read_digits r s a b) as [m|]; [f_equal; lia|done]
  end.

(** On digits alone [parseInt] finds no sign and no prefix. *)
Lemma parseInt_digits s :
  s <> [] -> forallb is_digit s = true ->
  parseInt s = read_digits 10 s 0 false.
Proof.
  intros Hne Hs. destruct s as [|c s]; [done|]. cbn in Hs.
  apply andb_true_iff in Hs as [Hc Hs].
  unfold parseInt. rewrite trimStart_nonspace by by apply digit_not_space.
  digit_cases c Hc; try read_plain.
  destruct s as [|c' s]; [read_plain|]. cbn in Hs.
  apply andb_true_iff in Hs as [Hc' Hs].
  digit_cases c' Hc'; read_plain.
Qed.

(** What is printed in decimal is read back by [parseInt]. *)
Lemma parseInt_decimal n : parseInt (decimal n) = Some (Z.of_N n).
Proof.
  destruct (decimal_digits n) as [Hne Hdigits].
  rewrite parseInt_digits by done.
  rewrite <- (DecimalN.Unsigned.of_to n) at 2. rewrite uint_value_of_uint.
  unfold decimal, NilZero.string_of_uint.
  destruct (N.to_uint n) eqn:Hd; [done|..];
    rewrite <- Hd; rewrite read_digits_uint; by rewrite Hd.
Qed.

(** Trimming removes the white space around digits. *)
Lemma trim_padded_digits spaces1 digits spaces2 :
  forallb is_space spaces1 = true ->
  forallb is_space spaces2 = true ->
  digits <> [] ->
  forallb is_digit digits = true ->
  trim (spaces1 ++ digits ++ spaces2) = digits.
Proof.
  intros H1 H2 Hne Hdigits. unfold trim. rewrite trimStart_spaces by done.
  destruct digits as [|c digits]; [done|].
  assert (is_digit c = true) as Hc
    by (cbn in Hdigits; by apply andb_true_iff in Hdigits as [? _]).
  cbn [app]. rewrite trimStart_nonspace by by apply digit_not_space.
  change (c :: digits ++ spaces2) with ((c :: digits) ++ spaces2).
  destruct (c :: digits) as [|x l] using rev_ind; [done|].
  clear IHl. rewrite forallb_app in Hdigits. cbn in Hdigits.
  apply andb_true_iff in Hdigits as [_ Hx].
  apply andb_true_iff in Hx as [Hx _].
  rewrite <- app_assoc. cbn [app].
  rewrite trimEnd_app_nonspace by by apply digit_not_space.
  by rewrite trimEnd_spaces.
Qed.

End Text.

Section Estimate.

Context (env : Env).

(** X17: when the model answers with a number in decimal, with or
    without white space around it, the step count is that number when
    it lies between 8 and 20, and 12 otherwise. *)
Theorem decimal_answer_is_read referenceImageData imageDescription w
    response spaces1 n spaces2 :
  gemini env (length (calls w))
    (stepCountCall referenceImageData imageDescription) = Ok response ->
  text response = Ok (spaces1 ++ decimal n ++ spaces2) ->
  forallb is_space spaces1 = true ->
  forallb is_space spaces2 = true ->
  fst (determineOptimalSteps env referenceImageData imageDescription w)
  = Ok (if (8 <=? n)%N && (n <=? 20)%N then Z.of_N n else 12).
Proof.
  intros Hanswer Htext H1 H2.
  rewrite determineOptimalSteps_cases, Hanswer, Htext. cbn [fst].
  destruct (decimal_digits n) as [Hne Hdigits].
  rewrite trim_padded_digits, parseInt_decimal by done. f_equal.
  destruct ((8 <=? n)%N && (n <=? 20)%N) eqn:Hrange.
  - apply andb_true_iff in Hrange. rewrite !N.leb_le in Hrange.
    replace ((Z.of_N n <? 8) || (Z.of_N n >? 20)) with false; [done|].
    symmetry. apply orb_false_iff. rewrite Z.gtb_ltb, !Z.ltb_ge. lia.
  - apply andb_false_iff in Hrange. rewrite !N.leb_gt in Hrange.
    replace ((Z.of_N n <? 8) || (Z.of_N n >? 20)) with true; [done|].
    symmetry. apply orb_true_iff. rewrite Z.gtb_ltb, !Z.ltb_lt. lia.
Qed.

End Estimate.

Section PlanPrefix.

(** X19: the plans for two step counts agree on the smaller one: the
    plan for fewer steps is the beginning of the plan for more steps
    from the same text. *)
Theorem plan_prefix planText (fewer more : nat) :
  (fewer <= more)%nat ->
  take fewer (parsePlan planText more) = parsePlan planText fewer.
Proof.
  intros Hle. unfold parsePlan.
  set (kept := omap planLine (split_lines planText)).
  rewrite take_take, Nat.min_l by done.
  rewrite !take_app, !take_replicate. f_equal. f_equal. lia.
Qed.

End PlanPrefix.

(** ** The URLs of a response *)

Section Served.

Context (env : Env).

Lemma sketch_saved imagePath difficulty w sketch w1 url :
  generatePencilSketchFromImage env imagePath difficulty w = (Ok sketch, w1) ->
  imageUrl sketch = Some url ->
  exists now extension,
    url = lit "/generated/" ++ sketchFilename now ++ extension /\
    is_Some (files w1 !! (lit "generated", sketchFilename now ++ extension)).
Proof.
  rewrite generatePencilSketchFromImage_cases. intros Hsketch Hurl.
  destruct (files w !! imagePath) as [bytes|]; [|by simplify_eq].
  cbn zeta in Hsketch.
  destruct (gemini env _ _) as [response|e]; [|by simplify_eq].
  destruct (firstCandidateParts response) as [ps|]; [|by simplify_eq].
  destruct (firstInlineData ps) as [d|]; [|by simplify_eq].
  destruct (saveGeneratedImage _ _ _ _ _) as [[url'|e] w'] eqn:Hsave;
    [|by simplify_eq].
  apply saved_url_truthy in Hsave as [-> Hfile].
  injection Hsketch as <- <-. cbn [imageUrl] in Hurl. injection Hurl as <-.
  eexists _, _. split; [reflexivity|]. by eexists.
Qed.

Lemma generateStepImage_saved stepDescription referenceImageData previous
    stepNumber totalSteps w g w1 :
  generateStepImage env stepDescription referenceImageData previous
    stepNumber totalSteps w = (Ok (Some g), w1) ->
  imageUrl g = None \/
  exists now extension,
    imageUrl g
    = Some (lit "/generated/" ++ stepFilename stepNumber now ++ extension) /\
    is_Some (files w1 !! (lit "generated",
                          stepFilename stepNumber now ++ extension)).
Proof.
  rewrite generateStepImage_cases. cbn zeta.
  destruct (gemini env _ _) as [response|e]; [|done].
  destruct (firstCandidateParts response) as [ps|];
    [|intros [= <- _]; by left].
  destruct (firstInlineData ps) as [d|]; [|intros [= <- _]; by left].
  destruct (saveGeneratedImage _ _ _ _ _) as [[url|e] w'] eqn:Hsave;
    [|intros [= <- _]; by left].
  apply saved_url_truthy in Hsave as [-> Hfile]. intros [= <- <-]. right.
  eexists _, _. split; [reflexivity|]. by eexists.
Qed.

Lemma servedIn_kept w w' s : FilesKept w w' -> servedIn w s -> servedIn w' s.
Proof.
  intros Hkept [Hnone|(now & extension & Hurl & Hfile)]; [by left|right].
  exists now, extension. split; [done|]. by apply Hkept.
Qed.

Lemma stepLoop_served referenceSketchData tutorialPlan totalSteps
    remaining i st w st' w' :
  stepLoop env referenceSketchData tutorialPlan totalSteps remaining i st w
  = (Ok st', w') ->
  Forall (servedIn w) (steps st) -> Forall (servedIn w') (steps st').
Proof.
  revert i st w. induction remaining as [|n IH]; intros i st w Hloop Hserved.
  - cbn in Hloop. unfold ret in Hloop. by simplify_eq.
  - cbn [stepLoop] in Hloop.
    apply bind_ok_inv in Hloop as (st1 & w1 & Hiter & Hrest).
    apply stepIteration_ok_inv in Hiter as (g & Hgen & ->).
    apply (IH _ _ _ Hrest). cbn [recordStep steps].
    apply Forall_app. split.
    + eapply Forall_impl; [exact Hserved|]. intros s. apply servedIn_kept.
      eapply keeps_files; [|exact Hgen].
      intros R ? ? ? ? ?. by apply Respects_generateStepImage.
    + constructor; [|constructor].
      destruct (generateStepImage_saved _ _ _ _ _ _ _ _ Hgen)
        as [Hnone|Hsome]; [by left|by right].
Qed.

(** X18: every image URL of a response with status 200 can be fetched
    when the response is sent.  The URL of the sketch is
    [/generated/reference_sketch_<time>] with an extension, the URL of a
    step, when it is not null, is [/generated/step_<number>_<time>] with
    an extension and the number of that step, and the files of these
    names exist below [generated]. *)
Theorem response_urls_are_served req w resp w' :
  generateTutorial env req w = (Ok resp, w') ->
  status resp = 200%nat ->
  exists sketch records,
    body resp = TutorialBody sketch records /\
    (exists now extension,
        sketchImageUrl sketch
        = Some (lit "/generated/" ++ sketchFilename now ++ extension) /\
        is_Some (files w' !! (lit "generated",
                              sketchFilename now ++ extension))) /\
    Forall (servedIn w') records.
Proof.
  intros Hrun Hstatus.
  destruct (generateTutorial_200_reaches env req w resp w' Hrun Hstatus)
    as (sketchUrl & sketchData & imageDescription & plan & totalSteps & w4
        & st & Hreach & Hloop & ->).
  destruct Hreach
    as (filePath & level & sketch & w1 & w2 & stepCount & w3 & _ & _ & _
        & Hsketch & Hurl & _ & _ & Hanalyze & Hcount & _ & Hplan).
  assert (FilesKept w1 w') as Hkept.
  { eapply FilesKept_trans;
      [eapply keeps_files; [|exact Hanalyze];
       intros R ? ? ? ? ?; by apply Respects_analyzeImage|].
    eapply FilesKept_trans;
      [eapply keeps_files; [|exact Hcount];
       intros R ? ? ? ? ?; by apply Respects_determineOptimalSteps|].
    eapply FilesKept_trans;
      [eapply keeps_files; [|exact Hplan];
       intros R ? ? ? ? ?; by apply Respects_generateTutorialPlan|].
    eapply keeps_files; [|exact Hloop].
    intros R ? ? ? ? ?. by apply Respects_stepLoop. }
  eexists _, _. split; [reflexivity|]. split.
  - destruct (sketch_saved _ _ _ _ _ _ Hsketch Hurl)
      as (now & extension & -> & Hfile).
    exists now, extension. split; [done|]. by apply Hkept.
  - apply Forall_fmap.
    eapply Forall_impl;
      [apply (stepLoop_served _ _ _ _ _ _ _ _ _ Hloop); constructor|].
    by intros s.
Qed.

End Served.

(** ** Concrete runs, continued *)

Import Outage.

Lemma saved_image_is_served_witness :
  files (put_file (lit "generated", lit "step_1_1700000000001.jpg")
           (lit "c3RlcA") world)
  !! (lit "generated", lit "step_1_1700000000001.jpg")
  = Some (lit "c3RlcA").
Proof.
  refine (proj1 (proj2 (saved_image_is_served fine (lit "c3RlcA")
                          (lit "image/jpeg") (lit "step_1_1700000000001")
                          world (lit "/generated/step_1_1700000000001.jpg")
                          _ _ _))).
  - reflexivity.
  - vm_compute. reflexivity.
Defined.

Lemma distinct_names_distinct_files_witness :
  exists url1 w1 url2 w2,
    saveGeneratedImage fine (lit "c3RlcA") (lit "image/png")
      (lit "step_1_1700000000001") world = (Ok url1, w1) /\
    saveGeneratedImage fine (lit "c2tldGNo") (lit "image/gif")
      (lit "step_2_1700000000001") w1 = (Ok url2, w2) /\
    url1 <> url2 /\
    files w2 !! (lit "generated", lit "step_1_1700000000001"
                                  ++ extensionFor (lit "image/png"))
    = Some (lit "c3RlcA") /\
    files w2 !! (lit "generated", lit "step_2_1700000000001"
                                  ++ extensionFor (lit "image/gif"))
    = Some (lit "c2tldGNo").
Proof.
  apply (distinct_names_distinct_files fine (lit "c3RlcA") (lit "image/png")
           (lit "step_1_1700000000001") (lit "c2tldGNo") (lit "image/gif")
           (lit "step_2_1700000000001") world).
  - reflexivity.
  - reflexivity.
  - discriminate.
  - vm_compute. reflexivity.
Defined.

Lemma same_name_overwrites_witness :
  exists url w1 w2,
    saveGeneratedImage fine (lit "c3RlcA") (lit "image/jpeg")
      (lit "step_1_1700000000001") world = (Ok url, w1) /\
    saveGeneratedImage fine (lit "c2tldGNo") (lit "image/jpg")
      (lit "step_1_1700000000001") w1 = (Ok url, w2) /\
    files w2 !! (lit "generated", lit "step_1_1700000000001"
                                  ++ extensionFor (lit "image/jpeg"))
    = Some (lit "c2tldGNo") /\
    dom (files w2) = dom (files w1).
Proof.
  apply (same_name_overwrites fine (lit "c3RlcA") (lit "image/jpeg")
           (lit "c2tldGNo") (lit "image/jpg") (lit "step_1_1700000000001")
           world).
  - reflexivity.
  - reflexivity.
  - vm_compute. reflexivity.
Defined.

Lemma unreadable_upload_witness :
  generatePencilSketchFromImage fine (lit "uploads", lit "gone.png")
    (lit "beginner") world = (Ok noImage, world)
  /\ analyzeImage fine (lit "uploads", lit "gone.png") world
     = (Err (enoent (lit "uploads", lit "gone.png")), world).
Proof.
  apply (unreadable_upload fine (lit "uploads", lit "gone.png")
           (lit "beginner") world).
  vm_compute. reflexivity.
Defined.

Lemma invalid_request_rejected_witness :
  generateTutorial fine noDifficulty world
  = (Ok (rejection (lit "Difficulty level is required")), world).
Proof.
  apply (invalid_request_rejected fine noDifficulty world).
  right. reflexivity.
Defined.

Lemma missing_sketch_is_fatal_witness :
  generateTutorial fine lostUpload world = (Ok (failure sketchFailed), world).
Proof.
  apply (missing_sketch_is_fatal fine lostUpload world
           (lit "uploads", lit "gone.png") (lit "beginner") noImage world);
    vm_compute; reflexivity.
Defined.

Lemma failed_analysis_is_fatal_witness :
  generateTutorial afterSketch request world
  = (Ok (failure (message unavailable)),
     snd (analyzeImage afterSketch upload (sketched afterSketch))).
Proof.
  apply (failed_analysis_is_fatal afterSketch request world upload
           (lit "beginner") sketch sketchUrl (sketched afterSketch)
           unavailable); vm_compute; reflexivity.
Defined.

Lemma stepFails_reaches :
  ReachesLoop stepFails request world sketchUrl sketchData catDescription
    plan 8 (planned stepFails).
Proof.
  exists upload, (lit "beginner"), sketch, (sketched stepFails),
    (described stepFails), 8, (counted stepFails).
  repeat split; vm_compute; reflexivity.
Qed.

Lemma failed_step_call_is_fatal_witness :
  generateTutorial stepFails request world =
  (Ok (failure (message destructureNull)),
   log_call
     (stepImageCall (stepDescriptionAt plan 2) sketchData (2 + 1) 8
        (recentPart (last (previousStepsImagesData (stateAfter stepFails 2)))))
     (worldAfter stepFails 2)).
Proof.
  assert (exists produced,
             LoopRun stepFails sketchData plan 8 (planned stepFails) 2
               produced (stateAfter stepFails 2) (worldAfter stepFails 2))
    as [produced Hrun]
    by (apply LoopRun_iff_stepLoop; vm_compute; reflexivity).
  apply (failed_step_call_is_fatal stepFails request world sketchUrl
           sketchData catDescription plan 8 (planned stepFails) 2 produced
           (stateAfter stepFails 2) (worldAfter stepFails 2) unavailable
           stepFails_reaches Hrun).
  - lia.
  - vm_compute. reflexivity.
Defined.

Lemma successful_request_calls_witness :
  exists (stepCount : Z) (stepCalls : list Call),
    8 <= stepCount <= 20 /\
    length stepCalls = Z.to_nat stepCount /\
    length (calls fineWorld) = (4 + Z.to_nat stepCount)%nat.
Proof.
  destruct (successful_request_calls fine request world fineResponse
              fineWorld fine_run eq_refl)
    as (filePath & level & bytes & sketch & w1 & bytes' & description & w2
        & stepCount & w3 & plan & w4 & sketchInfo & records & stepCalls
        & _ & _ & _ & _ & _ & _ & _ & _ & Hrange & _ & _ & _ & _ & _
        & Hcalls & Hlength & _).
  exists stepCount, stepCalls. split; [exact Hrange|].
  split; [exact Hlength|].
  rewrite Hcalls. change (calls world) with (@nil Call).
  rewrite <- Hlength. reflexivity.
Defined.

Lemma step_records_of_run_witness :
  step <$> steps (stateAfter stepTwoEmpty 2) = seq 1 2 /\
  Forall2 recordOf (steps (stateAfter stepTwoEmpty 2))
    [Some (stepImage 1); None].
Proof.
  pose proof (step_records_of_run stepTwoEmpty sketchData plan 8
                (planned stepTwoEmpty) 2 [Some (stepImage 1); None]
                (stateAfter stepTwoEmpty 2) (worldAfter stepTwoEmpty 2)
                stepTwoEmpty_run) as (Hstep & _ & Hrecords).
  exact (conj Hstep Hrecords).
Defined.

Lemma numbered_line_entry_witness :
  planLine (lit "  " ++ lit "12" ++ 46%N :: lit "   Add the ears.  ")
  = Some (lit "Add the ears.").
Proof.
  apply (numbered_line_entry (lit "  ") (lit "12") (lit "   Add the ears.  "));
    [reflexivity|discriminate|reflexivity].
Defined.

Lemma decimal_answer_is_read_witness :
  fst (determineOptimalSteps
         (constant (Ok (textResponse (lit " " ++ decimal 16 ++ newline))))
         sketchData catDescription world)
  = Ok 16.
Proof.
  apply (decimal_answer_is_read
           (constant (Ok (textResponse (lit " " ++ decimal 16 ++ newline))))
           sketchData catDescription world
           (textResponse (lit " " ++ decimal 16 ++ newline))
           (lit " ") 16%N newline); reflexivity.
Defined.

Lemma response_urls_are_served_witness :
  exists sketch records,
    body fineResponse = TutorialBody sketch records /\
    Forall (servedIn fineWorld) records.
Proof.
  destruct (response_urls_are_served fine request world fineResponse
              fineWorld fine_run eq_refl)
    as (sketch & records & Hbody & _ & Hserved).
  exists sketch, records. exact (conj Hbody Hserved).
Defined.

Lemma plan_prefix_witness :
  take 3 (parsePlan planText 8) = parsePlan planText 3.
Proof. apply (plan_prefix planText 3 8). lia. Defined.

Lemma store_and_directory_witness :
  exists w',
    SavingExample.saveGeneratedImage fine (lit "c3RlcA") (lit "image/gif")
      (lit "sketch_1700000000000") worldWithoutGenerated
    = (Ok (lit "generated_images/sketch_1700000000000.gif"), w') /\
    lit "generated_images" ∈ dirs w'.
Proof.
  destruct (store_and_directory fine (lit "c3RlcA") (lit "image/gif")
              (lit "sketch_1700000000000") worldWithoutGenerated eq_refl)
    as ((w' & Hstore & Hdir & _) & _).
  exists w'. exact (conj Hstore Hdir).
Defined.

Lemma planOnly_draws n c :
  model c = lit "gemini-2.5-flash-image-preview" ->
  exists response, gemini planOnly n c = Ok response.
Proof.
  intros Hmodel. unfold planOnly. cbn [gemini].
  destruct (decide (model c = lit "gemini-2.5-flash-image-preview"));
    [by eexists|done].
Qed.

Lemma plan_failure_is_not_fatal_witness :
  fst (generateTutorialPlan planOnly (Some reference) catDescription 8
         (counted planOnly)) = Ok (genericSteps 8) /\
  exists sketchInfo records,
    fst (generateTutorial planOnly request world)
    = Ok {| status := 200; body := TutorialBody sketchInfo records |} /\
    description <$> records = genericSteps 8.
Proof.
  destruct (plan_failure_is_not_fatal planOnly request world upload
              (lit "beginner") sketch sketchUrl (sketched planOnly)
              catDescription (described planOnly) 8 (counted planOnly)
              unavailable)
    as (Hplan & _ & _ & Hresponse);
    [vm_compute; reflexivity..|exact planOnly_draws|].
  exact (conj Hplan Hresponse).
Defined.
